(** * Melody: the playlist pipeline of [app.py]

    A shallow embedding of the chat handler of [app.py] and of the Python
    string operations it relies on, followed by the properties of the
    pipeline: playlist parsing ([extract_songs]), track resolution
    ([search_songs]), publication ([create_spotify_playlist]) and the
    conversation handler ([music_assistant_llm]).

    Text.  A Python [str] is modelled by [string].  Character classes
    follow Python on the ASCII range; a byte above 127 stands for a piece
    of the UTF-8 encoding of a non-ASCII code point and is taken to be
    neither white space, nor a digit, nor a cased letter.

    Exceptions.  A computation that may raise returns a [result]; only
    exceptions deriving from [Exception] are modelled, which is what the
    [except Exception] clauses of the source catch.

    Effects.  The module-level [session] dictionary and the outside world
    (text generation, catalog search, playlist creation) are threaded
    explicitly: a statement of the handler is a function from a [state] to
    an outcome and a new state, and a mutation made before an exception is
    raised stays in the state, as it does in Python.  Output written by
    [print] is not part of the model. *)

From Stdlib Require Import String Ascii List Bool Arith Lia.
Import ListNotations.
Local Open Scope list_scope.
Local Open Scope string_scope.

(** ** Exceptions *)

Inductive exn : Type :=
| IndexError
| Raised (what : string).

(** Raised by [.get] on a value that is not a dictionary and by
    [.strip()] on a value that is not a string. *)
Definition AttributeError : exn := Raised "AttributeError".

Inductive result (A : Type) : Type :=
| Ok (a : A)
| Err (e : exn).
Arguments Ok {A} a.
Arguments Err {A} e.

Definition rbind {A B : Type} (r : result A) (k : A -> result B) : result B :=
  match r with
  | Ok a => k a
  | Err e => Err e
  end.

Notation "x <~ r ;; k" := (rbind r (fun x => k))
  (at level 61, r at next level, right associativity).

(** ** Python strings *)

Module Py.

(** The line feed, written ["\n"] in the source. *)
Definition LF : string := String "010"%char "".

(** [c.isspace()] on the ASCII range: TAB, LF, VT, FF, CR, FS, GS, RS, US
    and SPACE. *)
Definition ch_isspace (c : ascii) : bool :=
  let n := nat_of_ascii c in
  (((9 <=? n) && (n <=? 13)) || ((28 <=? n) && (n <=? 32)))%nat.

(** [c.isdigit()] on the ASCII range. *)
Definition ch_isdigit (c : ascii) : bool :=
  let n := nat_of_ascii c in ((48 <=? n) && (n <=? 57))%nat.

(** [c.lower()] on the ASCII range. *)
Definition ch_lower (c : ascii) : ascii :=
  let n := nat_of_ascii c in
  if ((65 <=? n) && (n <=? 90))%nat then ascii_of_nat (n + 32) else c.

(** [s.lower()] *)
Fixpoint lower (s : string) : string :=
  match s with
  | "" => ""
  | String c s' => String (ch_lower c) (lower s')
  end.

(** [s.isdigit()]: at least one character, and all of them digits. *)
Fixpoint all_digits (s : string) : bool :=
  match s with
  | "" => true
  | String c s' => ch_isdigit c && all_digits s'
  end.

Definition isdigit (s : string) : bool :=
  match s with
  | "" => false
  | _ => all_digits s
  end.

(** Truth value of a string: [bool(s)], false exactly on the empty one. *)
Definition truthy (s : string) : bool :=
  match s with
  | "" => false
  | _ => true
  end.

(** [s.lstrip()], [s.rstrip()] and [s.strip()] *)
Fixpoint lstrip (s : string) : string :=
  match s with
  | "" => ""
  | String c s' => if ch_isspace c then lstrip s' else s
  end.

Fixpoint rstrip (s : string) : string :=
  match s with
  | "" => ""
  | String c s' =>
      match rstrip s' with
      | "" => if ch_isspace c then "" else String c ""
      | r => String c r
      end
  end.

Definition strip (s : string) : string := rstrip (lstrip s).

(** [sub in s] *)
Fixpoint contains (sub s : string) : bool :=
  prefix sub s ||
  match s with
  | "" => false
  | String _ s' => contains sub s'
  end.

(** [s.split(sep)] for a non-empty [sep]: the text is scanned from the
    left, every leftmost occurrence of [sep] closes the current segment
    and the scan resumes after it.  [skip] counts the characters of a
    matched separator that are still to be passed over, [cur] is the
    segment being read. *)
Fixpoint split_scan (sep : string) (skip : nat) (cur s : string)
  : list string :=
  match s with
  | "" => [cur]
  | String c s' =>
      match skip with
      | S k => split_scan sep k cur s'
      | O =>
          if prefix sep s
          then cur :: split_scan sep (String.length sep - 1) "" s'
          else split_scan sep 0 (cur ++ String c "") s'
      end
  end.

Definition split (s sep : string) : list string := split_scan sep 0 "" s.

(** [s[i]]: the one-character string at index [i], [IndexError] when
    there is none. *)
Definition char_at (s : string) (i : nat) : result string :=
  match String.get i s with
  | Some c => Ok (String c "")
  | None => Err IndexError
  end.

(** [l[i]] on a list. *)
Definition item {A : Type} (l : list A) (i : nat) : result A :=
  match nth_error l i with
  | Some a => Ok a
  | None => Err IndexError
  end.

(** [sep.join(ls)] is [String.concat sep ls]. *)
Definition join (sep : string) (ls : list string) : string :=
  String.concat sep ls.

(** All of [s] but its last character. *)
Fixpoint init (s : string) : string :=
  match s with
  | "" => ""
  | String c s' =>
      match s' with
      | "" => ""
      | _ => String c (init s')
      end
  end.

(** Number of occurrences of the character [c] in [s]. *)
Fixpoint count_char (c : ascii) (s : string) : nat :=
  match s with
  | "" => 0
  | String d s' => (if Ascii.eqb c d then 1 else 0) + count_char c s'
  end.

End Py.

Import Py.

(** ** PlaylistTextParser: [extract_songs] *)

Definition song : Type := (string * string)%type.

(** The body of the [for line in lines] loop, [songs] being the list
    built so far. *)
Fixpoint extract_loop (lines : list string) (songs : list song)
  : result (list song) :=
  match lines with
  | [] => Ok songs
  | line :: rest =>
      if truthy (strip line) then
        c <~ char_at line 0 ;;
        if isdigit c then
          let parts := split line " - " in
          if Nat.eqb (List.length parts) 2 then
            p0 <~ item parts 0 ;;
            t <~ item (split p0 ". ") 1 ;;
            let song_title := strip t in
            p1 <~ item parts 1 ;;
            let artist := strip p1 in
            extract_loop rest (songs ++ [(song_title, artist)])%list
          else extract_loop rest songs
        else extract_loop rest songs
      else extract_loop rest songs
  end.

Definition extract_songs (playlist_text : string) : result (list song) :=
  let songs := [] in
  let lines := split playlist_text LF in
  extract_loop lines songs.

(** ** Session data *)

Record preferences_dict : Type := {
  mood : option string;
  genre : option string
}.

Record session_dict : Type := {
  state : string;
  preferences : preferences_dict
}.

(** The module-level [session] as the program starts. *)
Definition session : session_dict :=
  {| state := "conversation";
     preferences := {| mood := None; genre := None |} |}.

(** [repr] of a string on the ASCII range: single quotes unless the text
    holds a single quote and no double quote; the quote in use and the
    backslash are escaped, TAB, LF and CR have their letter escapes and
    the other control characters are written in hexadecimal. *)
Definition SQ : ascii := "039"%char.
Definition DQ : ascii := "034"%char.
Definition BS : ascii := "092"%char.

Definition hexdigit (n : nat) : ascii :=
  if (n <? 10)%nat then ascii_of_nat (48 + n) else ascii_of_nat (87 + n).

Fixpoint has_char (c : ascii) (s : string) : bool :=
  match s with
  | "" => false
  | String d s' => Ascii.eqb c d || has_char c s'
  end.

Definition repr_quote (s : string) : ascii :=
  if has_char SQ s && negb (has_char DQ s) then DQ else SQ.

Fixpoint repr_body (quote : ascii) (s : string) : string :=
  match s with
  | "" => ""
  | String c s' =>
      let n := nat_of_ascii c in
      (if Ascii.eqb c quote || Ascii.eqb c BS then String BS (String c "")
       else if (n =? 9)%nat then String BS "t"
       else if (n =? 10)%nat then String BS "n"
       else if (n =? 13)%nat then String BS "r"
       else if ((n <? 32) || (n =? 127))%nat
            then String BS (String "x" (String (hexdigit (n / 16))
                                          (String (hexdigit (n mod 16)) "")))
       else String c "")
      ++ repr_body quote s'
  end.

Definition repr_str (s : string) : string :=
  let quote := repr_quote s in
  String quote (repr_body quote s ++ String quote "").

Definition repr_opt (v : option string) : string :=
  match v with
  | None => "None"
  | Some s => repr_str s
  end.

(** [str(session['preferences'])] *)
Definition repr_preferences (p : preferences_dict) : string :=
  "{'mood': " ++ repr_opt (mood p) ++ ", 'genre': " ++ repr_opt (genre p) ++ "}".

(** ** The outside world *)

(** The two [system=] prompts handed to [generate]: the one of
    [music_assistant_llm], which asks for a reply made of a line
    ["Mood: .."] and a line ["Genre: .."], and the one of
    [generate_playlist], which asks for a numbered list of ten songs.  The other keyword arguments are the same constants at both
    call sites (model "4o-mini", temperature 0.7, lastk 10, session_id
    "music-therapy-session", rag_usage False). *)
Inductive system_prompt : Type :=
| AssistantPrompt
| PlaylistPrompt.

(** The dictionary returned by [generate], read with
    [.get("response", "")]. *)
Record generation : Type := {
  response : option string
}.

(** What [generate] hands back: a dictionary as above, or [Unusable] for
    any other value, that is a value that is not a dictionary or a
    dictionary whose entry ["response"] is not a string (null, a number,
    a list). *)
Inductive generated : Type :=
| Dict (d : generation)
| Unusable.

(** What [sp.search] returns, read with
    [.get("tracks", {}).get("items", [])] and [tracks[0]["uri"]]. *)
Record track : Type := {
  uri : string
}.

Record tracks_page : Type := {
  items : option (list track)
}.

Record search_results : Type := {
  tracks : option tracks_page
}.

(** What [user_playlist_create] returns, read with [playlist["id"]] and
    [playlist["external_urls"]["spotify"]]. *)
Record external_urls_dict : Type := {
  spotify : string
}.

Record playlist_dict : Type := {
  playlist_id : string;
  external_urls : external_urls_dict
}.

(** The external capabilities.  Each call takes the state of the outside
    world, answers or raises, and leaves a new state of the world, so
    that two calls with the same arguments may behave differently.
    [sp_search q] is [sp.search(q=q, limit=1, type="track")];
    [SpotifyOAuth] is built from the configured credentials with the scope
    "playlist-modify-public"; [Spotify] is [spotipy.Spotify(auth_manager=..)]. *)
Record providers : Type := {
  World : Type;
  auth_manager : Type;
  client : Type;
  generate : system_prompt -> string -> World -> result generated * World;
  sp_search : string -> World -> result search_results * World;
  SpotifyOAuth : World -> result auth_manager * World;
  Spotify : auth_manager -> World -> result client * World;
  user_playlist_create :
    client -> string -> string -> bool -> string ->
    World -> result playlist_dict * World;
  playlist_add_items :
    client -> string -> list string -> World -> result unit * World
}.

(** ** Statements with state and exceptions *)

Record store (P : providers) : Type := {
  sess : session_dict;
  world : World P
}.
Arguments sess {P} s.
Arguments world {P} s.

Definition M (P : providers) (A : Type) : Type :=
  store P -> result A * store P.

Definition ret {P A} (a : A) : M P A := fun s => (Ok a, s).

Definition raise {P A} (e : exn) : M P A := fun s => (Err e, s).

Definition bind {P A B} (m : M P A) (k : A -> M P B) : M P B :=
  fun s =>
    match m s with
    | (Ok a, s') => k a s'
    | (Err e, s') => (Err e, s')
    end.

Notation "x <- m ;; k" := (bind m (fun x => k))
  (at level 61, m at next level, right associativity).

(** [try: body except Exception as e: handler] *)
Definition try_except {P A} (body : M P A) (handler : exn -> M P A) : M P A :=
  fun s =>
    match body s with
    | (Ok a, s') => (Ok a, s')
    | (Err e, s') => handler e s'
    end.

(** A pure computation that may raise. *)
Definition lift {P A} (r : result A) : M P A := fun s => (r, s).

(** A call to an external capability. *)
Definition call {P A} (f : World P -> result A * World P) : M P A :=
  fun s =>
    let (r, w) := f (world s) in
    (r, {| sess := sess s; world := w |}).

(** [session["preferences"]] *)
Definition get_preferences {P} : M P preferences_dict :=
  fun s => (Ok (preferences (sess s)), s).

(** [session["preferences"]["mood"] = v] *)
Definition set_mood {P} (v : string) : M P unit :=
  fun s =>
    let d := sess s in
    (Ok tt,
     {| sess := {| state := state d;
                   preferences := {| mood := Some v;
                                     genre := genre (preferences d) |} |};
        world := world s |}).

(** [session["preferences"]["genre"] = v] *)
Definition set_genre {P} (v : string) : M P unit :=
  fun s =>
    let d := sess s in
    (Ok tt,
     {| sess := {| state := state d;
                   preferences := {| mood := mood (preferences d);
                                     genre := Some v |} |};
        world := world s |}).

(** ** TrackResolver: [search_songs] *)

(** [results.get("tracks", {}).get("items", [])] *)
Definition tracks_of (results : search_results) : list track :=
  match tracks results with
  | None => []
  | Some page =>
      match items page with
      | None => []
      | Some l => l
      end
  end.

(** The [for song, artist in songs] loop, [track_uris] being the list
    built so far. *)
Fixpoint search_loop {P} (songs : list song) (track_uris : list string)
  : M P (list string) :=
  match songs with
  | [] => ret track_uris
  | (song, artist) :: rest =>
      track_uris' <-
        try_except
          (results <- call (sp_search P ("track:" ++ song ++ " artist:" ++ artist)) ;;
           let tracks := tracks_of results in
           match tracks with
           | t :: _ => ret (track_uris ++ [uri t])%list
           | [] => ret track_uris
           end)
          (fun e => ret track_uris) ;;
      search_loop rest track_uris'
  end.

Definition search_songs {P} (songs : list song) : M P (list string) :=
  let track_uris := [] in
  search_loop songs track_uris.

(** ** PlaylistPublisher: [create_spotify_playlist] *)

Definition SPOTIFY_USER_ID : string := "helloniam".

Definition PLAYLIST_DESCRIPTION : string :=
  "A custom playlist generated by Melody 🎶".

Definition create_spotify_playlist {P}
  (playlist_name : string) (track_uris : list string) : M P (option string) :=
  try_except
    (auth_manager <- call (SpotifyOAuth P) ;;
     sp_auth <- call (Spotify P auth_manager) ;;
     playlist <- call (user_playlist_create P sp_auth SPOTIFY_USER_ID
                         playlist_name true PLAYLIST_DESCRIPTION) ;;
     _ <- match track_uris with
          | [] => ret tt
          | _ => call (playlist_add_items P sp_auth (playlist_id playlist)
                         track_uris)
          end ;;
     ret (Some (spotify (external_urls playlist))))
    (fun e => ret None).

(** ** [generate_playlist] *)

(** [response.get("response", "")] *)
Definition response_or_empty (r : generation) : string :=
  match response r with
  | Some t => t
  | None => ""
  end.

(** [response.get("response", "").strip()]: [.get] raises on a value
    that is not a dictionary, [.strip()] on an entry that is not a
    string. *)
Definition stripped_response (response : generated) : result string :=
  match response with
  | Dict d => Ok (strip (response_or_empty d))
  | Unusable => Err AttributeError
  end.

Definition SORRY_MESSAGE : string :=
  "⚠️ Sorry, I couldn't generate a playlist. Try again!".

(** The pair returned holds the playlist text or [None], and next to it
    the songs or, when there is no text, a message. *)
Definition generate_playlist {P} (mood genre : string)
  : M P (option string * (string + list song)) :=
  response <- call (generate P PlaylistPrompt
                      ("Mood: " ++ mood ++ ", Genre: " ++ genre)) ;;
  playlist_text <- lift (stripped_response response) ;;
  if negb (truthy playlist_text) then ret (None, inl SORRY_MESSAGE)
  else
    songs <- lift (extract_songs playlist_text) ;;
    ret (Some playlist_text, inr songs).

(** ** ConversationOrchestrator: [music_assistant_llm] *)

Definition RETRY_MESSAGE : string :=
  "🎵 **Oops! Something went wrong.** Let's try again! Please share your mood and favorite genre, and I'll make a playlist for you. 😊".

Definition UNDETERMINED_MESSAGE : string :=
  "⚠️ I couldn't determine both mood and genre. Try again!".

Definition NO_PLAYLIST_MESSAGE : string :=
  "⚠️ Couldn't generate a playlist. Try again!".

Definition LISTEN_PREFIX : string :=
  LF ++ LF ++ "🎶 **Listen on Spotify:** ".

Definition DEGRADED_NOTICE : string :=
  LF ++ LF ++ "⚠️ Couldn't create a Spotify playlist, but here are the songs!".

Definition FILTER_MARKER : string := "blocked by content filtering".

(** The statements between [mood, genre = None, None] and the [except]
    clause: the markers are looked for in the lowered text, the text is
    split on the markers as they are written in the source. *)
Definition parse_mood_genre (response_text : string)
  : result (option string * option string) :=
  if contains "mood:" (lower response_text)
     && contains "genre:" (lower response_text)
  then
    after_mood <~ item (split response_text "Mood:") 1 ;;
    before_genre <~ item (split after_mood "Genre:") 0 ;;
    let mood := strip before_genre in
    after_genre <~ item (split response_text "Genre:") 1 ;;
    let genre := strip after_genre in
    Ok (Some mood, Some genre)
  else Ok (None, None).

(** [not v] for a value that is a string or [None]. *)
Definition falsy (v : option string) : bool :=
  match v with
  | Some s => negb (truthy s)
  | None => true
  end.

(** The [query=] of the assistant prompt. *)
Definition assistant_query (message : string) (prefs : preferences_dict)
  : string :=
  "User input: '" ++ message ++ "'" ++ LF
  ++ "Current preferences: " ++ repr_preferences prefs.

Definition music_assistant_llm {P} (message : string) : M P string :=
  prefs <- get_preferences ;;
  response <- call (generate P AssistantPrompt
                      (assistant_query message prefs)) ;;
  response_text <- lift (stripped_response response) ;;
  if contains FILTER_MARKER (lower response_text) then ret RETRY_MESSAGE
  else
    match parse_mood_genre response_text with
    | Err IndexError => ret UNDETERMINED_MESSAGE
    | Err e => raise e
    | Ok (mood, genre) =>
        if falsy mood || falsy genre then ret response_text
        else
          match mood, genre with
          | Some mood, Some genre =>
              _ <- set_mood mood ;;
              _ <- set_genre genre ;;
              pl <- generate_playlist mood genre ;;
              let '(playlist_text, songs) := pl in
              if falsy playlist_text then ret NO_PLAYLIST_MESSAGE
              else
                match playlist_text, songs with
                | Some playlist_text, inr songs =>
                    track_uris <- search_songs songs ;;
                    spotify_url <- create_spotify_playlist
                                     (mood ++ " " ++ genre ++ " Playlist")
                                     track_uris ;;
                    match spotify_url with
                    | Some url =>
                        if truthy url
                        then ret (playlist_text ++ LISTEN_PREFIX ++ url)
                        else ret (playlist_text ++ DEGRADED_NOTICE)
                    | None => ret (playlist_text ++ DEGRADED_NOTICE)
                    end
                | _, _ => raise (Raised "ValueError")
                end
          | _, _ => ret response_text
          end
    end.

(** ** Notions used to state the properties *)

(** In [a ++ sep ++ b] the separator written between [a] and [b] is the
    leftmost occurrence of [sep], and [b] holds no further one. *)
Definition cut_once (sep a b : string) : bool :=
  negb (contains sep (a ++ init sep)) && negb (contains sep b).

(** A playlist line ["<n>. <title> - <artist>"]. *)
Definition entry : Type := (string * string * string)%type.

Definition entry_line (e : entry) : string :=
  let '(n, title, artist) := e in n ++ ". " ++ title ++ " - " ++ artist.

Definition led_by_digit (n : string) : bool :=
  match n with
  | String c _ => ch_isdigit c
  | "" => false
  end.

(** The line is read in one way only: its ordinal starts with a digit, it
    holds no line feed, its leftmost [". "] is the one after the ordinal
    and the title holds no other, its leftmost [" - "] is the one after
    the title and the artist holds no other. *)
Definition plain_entry (e : entry) : bool :=
  let '(n, title, artist) := e in
  led_by_digit n
  && negb (contains LF (entry_line e))
  && cut_once ". " n title
  && cut_once " - " (n ++ ". " ++ title) artist.

Definition entry_song (e : entry) : song :=
  let '(_, title, artist) := e in (strip title, strip artist).

(** [marker] occurs in [text] in some letter case. *)
Definition occurs_any_case (marker text : string) : Prop :=
  exists a m b, text = a ++ m ++ b /\ lower m = marker.

(** The result of reading the reply of the assistant prompt. *)
Inductive extraction : Type :=
| Filtered
| Unparsed
| Incomplete
| Complete (mood genre : string).

Definition preference_extractor (response_text : string) : extraction :=
  if contains FILTER_MARKER (lower response_text) then Filtered
  else
    match parse_mood_genre response_text with
    | Err _ => Unparsed
    | Ok (Some mood, Some genre) =>
        if truthy mood && truthy genre then Complete mood genre
        else Incomplete
    | Ok _ => Incomplete
    end.

(** The outcomes on which the handler replies at once. *)
Definition stops (o : extraction) : bool :=
  match o with
  | Complete _ _ => false
  | _ => true
  end.

(** The reply of the handler on the three outcomes that stop it. *)
Definition early_reply (response_text : string) (o : extraction) : string :=
  match o with
  | Filtered => RETRY_MESSAGE
  | Unparsed => UNDETERMINED_MESSAGE
  | _ => response_text
  end.

(** The answers of the catalog to the lookups of [songs], one after the
    other, from the world [w]. *)
Fixpoint lookups (P : providers) (songs : list song) (w : World P)
  : list (result search_results) * World P :=
  match songs with
  | [] => ([], w)
  | (title, artist) :: rest =>
      let (r, w1) := sp_search P ("track:" ++ title ++ " artist:" ++ artist) w in
      let (rs, w2) := lookups P rest w1 in
      (r :: rs, w2)
  end.

(** The identifier of the top match of a lookup that answered with at
    least one track: the lookup did not raise, its answer has an entry
    ["tracks"], that entry has an entry ["items"], and the list of items
    has a first element. *)
Definition top_match (r : result search_results) : option string :=
  match r with
  | Ok {| tracks := Some {| items := Some (t :: _) |} |} => Some (uri t)
  | _ => None
  end.

Fixpoint resolved (answers : list (result search_results)) : list string :=
  match answers with
  | [] => []
  | r :: rs =>
      match top_match r with
      | Some u => u :: resolved rs
      | None => resolved rs
      end
  end.



(** The sessions that the handler can be in: the initial one, and those a
    run of the handler leaves, whatever it returned or raised. *)
Inductive reachable (P : providers) : session_dict -> Prop :=
| reach_start : reachable P session
| reach_step : forall d w message,
    reachable P d ->
    reachable P (sess (snd (music_assistant_llm (P := P) message
                              {| sess := d; world := w |}))).

(** A statement that leaves the session as it found it. *)
Definition keeps_session {P A} (m : M P A) : Prop :=
  forall s, sess (snd (m s)) = sess s.

(** The store in which the world alone has moved on. *)
Definition in_world {P} (s : store P) (w : World P) : store P :=
  {| sess := sess s; world := w |}.

(** The session in which both preferences have been set. *)
Definition committed (d : session_dict) (mood genre : string) : session_dict :=
  {| state := state d;
     preferences := {| mood := Some mood; genre := Some genre |} |}.

(** A text of eleven numbered lines. *)
Definition eleven_songs : string :=
  join LF (map (fun n => n ++ ". Song - Artist")
             ["1"; "2"; "3"; "4"; "5"; "6"; "7"; "8"; "9"; "10"; "11"]).

(** ** A scripted world *)

(** A world that answers from a script and keeps a journal of the calls
    made to it. *)
Record studio : Type := {
  assistant_reply : string;
  playlist_reply : string;
  catalog_up : bool;
  journal : list string
}.

Definition noted (what : string) (w : studio) : studio :=
  {| assistant_reply := assistant_reply w;
     playlist_reply := playlist_reply w;
     catalog_up := catalog_up w;
     journal := (journal w ++ [what])%list |}.

Definition answer {A : Type} (what : string) (a : A) (w : studio)
  : result A * studio :=
  (if catalog_up w then Ok a else Err (Raised "ConnectionError"),
   noted what w).

Definition scripted : providers :=
  {| World := studio;
     auth_manager := unit;
     client := unit;
     generate := fun p _ w =>
       (Ok (Dict {| response :=
                      Some (match p with
                            | AssistantPrompt => assistant_reply w
                            | PlaylistPrompt => playlist_reply w
                            end) |}),
        noted "generate" w);
     sp_search := fun q =>
       answer "search"
         {| tracks := Some {| items := Some [ {| uri := "spotify:" ++ q |} ] |} |};
     SpotifyOAuth := answer "oauth" tt;
     Spotify := fun _ => answer "client" tt;
     user_playlist_create := fun _ _ name _ _ =>
       answer "create"
         {| playlist_id := name;
            external_urls := {| spotify := "https://open.spotify.com/playlist/" ++ name |} |};
     playlist_add_items := fun _ _ _ => answer "add" tt |}.

Definition on_air (assistant playlist : string) (up : bool) : store scripted :=
  Build_store scripted session
    {| assistant_reply := assistant;
       playlist_reply := playlist;
       catalog_up := up;
       journal := [] |}.

(** ** A catalog with gaps *)

(** A world whose catalog raises when the query names the artist
    ["Offline"], answers without an entry ["tracks"] for the artist
    ["Nobody"], answers an empty list of items for the title
    ["Unknown"], and otherwise answers two tracks, the top match first.
    The state of the world is the number of calls made to it; [generate]
    hands back a value that is not a dictionary. *)
Definition jukebox_search (q : string) (n : nat) : result search_results * nat :=
  (if contains "artist:Offline" q then Err (Raised "ConnectionError")
   else if contains "artist:Nobody" q then Ok {| tracks := None |}
   else if contains "track:Unknown" q
        then Ok {| tracks := Some {| items := Some [] |} |}
   else Ok {| tracks :=
                Some {| items :=
                          Some [ {| uri := "spotify:" ++ q |};
                                 {| uri := "spotify:second" |} ] |} |},
   S n).

Definition jukebox : providers :=
  {| World := nat;
     auth_manager := unit;
     client := unit;
     generate := fun _ _ n => (Ok Unusable, S n);
     sp_search := jukebox_search;
     SpotifyOAuth := fun n => (Ok tt, S n);
     Spotify := fun _ n => (Ok tt, S n);
     user_playlist_create := fun _ _ name _ _ n =>
       (Ok {| playlist_id := name;
              external_urls := {| spotify := "https://open.spotify.com/playlist/" ++ name |} |},
        S n);
     playlist_add_items := fun _ _ _ n => (Ok tt, S n) |}.

(** ** The route: [main] *)

(** A member of the body of a request.  [JOther] stands for what is not
    a string: null, a number, a boolean, an array or an object. *)
Inductive json_value : Type :=
| JString (s : string)
| JOther.

(** The body of a request as [request.get_json()] returns it: an object,
    given by its members, each key once, or [JNotObject] for any other
    value. *)
Inductive json_body : Type :=
| JObject (members : list (string * json_value))
| JNotObject.

(** [d.get(key, default)] on the members of an object. *)
Fixpoint dict_get (members : list (string * json_value)) (key : string)
  (default : json_value) : json_value :=
  match members with
  | [] => default
  | (k, v) :: rest =>
      if String.eqb k key then v else dict_get rest key default
  end.

(** The object handed to [jsonify]. *)
Record reply_json : Type := {
  text : string
}.

Definition main {P} (data : json_body) : M P reply_json :=
  member <- lift (match data with
                  | JObject members =>
                      Ok (dict_get members "text" (JString ""))
                  | JNotObject => Err AttributeError
                  end) ;;
  message <- lift (match member with
                   | JString t => Ok (strip t)
                   | JOther => Err AttributeError
                   end) ;;
  reply <- music_assistant_llm message ;;
  ret {| text := reply |}.

(** The statements of [music_assistant_llm] that follow the two
    assignments to the session. *)
Definition playlist_stage {P} (mood genre : string) : M P string :=
  pl <- generate_playlist mood genre ;;
  let '(playlist_text, songs) := pl in
  if falsy playlist_text then ret NO_PLAYLIST_MESSAGE
  else
    match playlist_text, songs with
    | Some playlist_text, inr songs =>
        track_uris <- search_songs songs ;;
        spotify_url <- create_spotify_playlist
                         (mood ++ " " ++ genre ++ " Playlist")
                         track_uris ;;
        match spotify_url with
        | Some url =>
            if truthy url
            then ret (playlist_text ++ LISTEN_PREFIX ++ url)
            else ret (playlist_text ++ DEGRADED_NOTICE)
        | None => ret (playlist_text ++ DEGRADED_NOTICE)
        end
    | _, _ => raise (Raised "ValueError")
    end.

(** The [query=] of the playlist prompt. *)
Definition playlist_query (mood genre : string) : string :=
  "Mood: " ++ mood ++ ", Genre: " ++ genre.

(** ** Further notions used to state the properties *)

(** The lines that [extract_songs] reads: the first character is a digit
    and the line splits on [" - "] into two segments. *)
Definition candidate (line : string) : bool :=
  led_by_digit line && Nat.eqb (List.length (split line " - ")) 2.

(** The candidate lines whose first segment holds no [". "]. *)
Definition undotted (line : string) : bool :=
  candidate line && negb (contains ". " (hd "" (split line " - "))).

(** Both fields of a song are trimmed. *)
Definition trimmed_song (x : song) : Prop :=
  strip (fst x) = fst x /\ strip (snd x) = snd x.

(** The test that guards the split on the markers. *)
Definition markers_seen (response_text : string) : bool :=
  contains "mood:" (lower response_text)
  && contains "genre:" (lower response_text).

(** * Properties *)

(** ** Facts on strings *)

Module PyFacts.

Lemma append_empty_r (s : string) : s ++ "" = s.
Proof. induction s as [|c s IH]; simpl; [reflexivity | now rewrite IH]. Qed.

Lemma append_assoc (a b c : string) : (a ++ b) ++ c = a ++ b ++ c.
Proof. induction a as [|x a IH]; simpl; [reflexivity | now rewrite IH]. Qed.

Lemma length_append (a b : string) :
  String.length (a ++ b) = String.length a + String.length b.
Proof. induction a as [|x a IH]; simpl; [reflexivity | now rewrite IH]. Qed.

Lemma prefix_cons (c d : ascii) (p s : string) :
  prefix (String c p) (String d s) = true <-> c = d /\ prefix p s = true.
Proof.
  simpl. destruct (ascii_dec c d) as [E|N].
  - split; [intros H; now split | now intros [_ H]].
  - split; [discriminate | intros [E _]; contradiction].
Qed.

Lemma prefix_app (p r : string) : prefix p (p ++ r) = true.
Proof.
  induction p as [|c p IH]; simpl.
  - now destruct r.
  - destruct (ascii_dec c c); [exact IH | contradiction].
Qed.

Lemma prefix_inv (p s : string) :
  prefix p s = true -> exists r, s = p ++ r.
Proof.
  revert s. induction p as [|c p IH]; intros s H.
  - now exists s.
  - destruct s as [|d s]; [discriminate|].
    apply prefix_cons in H. destruct H as [-> H].
    destruct (IH _ H) as [r ->]. now exists r.
Qed.

Lemma prefix_short (p u v : string) :
  prefix p (u ++ v) = true -> String.length p <= String.length u ->
  prefix p u = true.
Proof.
  revert u. induction p as [|c p IH]; intros u H L.
  - now destruct u.
  - destruct u as [|d u]; [simpl in L; lia|].
    simpl in H. apply prefix_cons in H. destruct H as [-> H].
    apply prefix_cons. split; [reflexivity|].
    apply IH; [exact H | simpl in L; lia].
Qed.

Lemma contains_cons (sub : string) (c : ascii) (s : string) :
  contains sub (String c s) = prefix sub (String c s) || contains sub s.
Proof. reflexivity. Qed.

Lemma contains_tail (sub x z : string) :
  contains sub (x ++ z) = false -> contains sub z = false.
Proof.
  induction x as [|c x IH]; simpl; [trivial|].
  intros H. apply orb_false_iff in H. destruct H as [_ H]. now apply IH.
Qed.

Lemma contains_head (sub s : string) :
  contains sub s = false -> prefix sub s = false.
Proof.
  destruct s; simpl; intros H; apply orb_false_iff in H; tauto.
Qed.

Lemma contains_here (a m b : string) : contains m (a ++ m ++ b) = true.
Proof.
  induction a as [|c a IH].
  - simpl. destruct (m ++ b) eqn:E.
    + simpl. destruct m; [reflexivity | discriminate].
    + rewrite contains_cons, <- E, prefix_app. reflexivity.
  - simpl. rewrite IH. apply orb_true_r.
Qed.

Lemma contains_inv (m s : string) :
  contains m s = true -> exists a b, s = a ++ m ++ b.
Proof.
  induction s as [|c s IH]; cbn [contains]; intros H.
  - rewrite orb_false_r in H. destruct m; [|discriminate].
    now exists "", "".
  - apply orb_true_iff in H. destruct H as [H|H].
    + destruct (prefix_inv _ _ H) as [r E]. exists "", r. exact E.
    + destruct (IH H) as (a & b & ->). now exists (String c a), b.
Qed.

Lemma init_last (c : ascii) (s : string) :
  exists l, String c s = init (String c s) ++ String l "".
Proof.
  revert c. induction s as [|d s IH]; intros c.
  - now exists c.
  - destruct (IH d) as [l E]. exists l.
    change (init (String c (String d s))) with (String c (init (String d s))).
    cbn [append]. now rewrite <- E.
Qed.

Lemma length_init (c : ascii) (s : string) :
  String.length (init (String c s)) = String.length s.
Proof.
  revert c. induction s as [|d s IH]; intros c; [reflexivity|].
  change (init (String c (String d s))) with (String c (init (String d s))).
  cbn [String.length]. now rewrite IH.
Qed.

(** *** [lower] *)

Lemma lower_app (a b : string) : lower (a ++ b) = lower a ++ lower b.
Proof. induction a as [|c a IH]; simpl; [reflexivity | now rewrite IH]. Qed.

Lemma space_not_lowered (c : ascii) :
  ch_isspace c = true -> ch_lower c = c.
Proof.
  destruct c as [[] [] [] [] [] [] [] []]; vm_compute; congruence.
Qed.

(** *** [split] *)

Lemma split_scan_skip (sep x cur b : string) :
  split_scan sep (String.length x) cur (x ++ b) = split_scan sep 0 cur b.
Proof. induction x as [|c x IH]; simpl; [reflexivity | exact IH]. Qed.

Lemma split_scan_hit (sep cur b : string) :
  sep <> "" ->
  split_scan sep 0 cur (sep ++ b) = cur :: split_scan sep 0 "" b.
Proof.
  destruct sep as [|c sep]; [congruence|]. intros _.
  change (String c sep ++ b) with (String c (sep ++ b)).
  cbn [split_scan].
  change (String c (sep ++ b)) with (String c sep ++ b).
  rewrite prefix_app. f_equal.
  replace (String.length (String c sep) - 1) with (String.length sep)
    by (simpl; lia).
  apply split_scan_skip.
Qed.

Lemma no_hit_before (sep a z b : string) :
  sep <> "" -> z <> "" ->
  contains sep (a ++ z ++ init sep) = false ->
  prefix sep (z ++ sep ++ b) = false.
Proof.
  intros Hs Hz H.
  rewrite <- append_assoc in H. rewrite append_assoc in H.
  apply contains_tail, contains_head in H.
  destruct (prefix sep (z ++ sep ++ b)) eqn:E; [|reflexivity].
  destruct sep as [|c sep]; [congruence|].
  destruct (init_last c sep) as [l El].
  rewrite El in E at 2. rewrite append_assoc, <- append_assoc in E.
  apply prefix_short in E.
  - congruence.
  - rewrite length_append, length_init. destruct z; [congruence|]. simpl. lia.
Qed.

Lemma split_scan_first (sep a cur b : string) :
  sep <> "" ->
  contains sep (a ++ init sep) = false ->
  split_scan sep 0 cur (a ++ sep ++ b) = (cur ++ a) :: split_scan sep 0 "" b.
Proof.
  intros Hs. revert cur. induction a as [|c a IH]; intros cur H.
  - simpl append. rewrite append_empty_r. now apply split_scan_hit.
  - assert (N : prefix sep (String c a ++ sep ++ b) = false).
    { apply (no_hit_before sep "" (String c a) b); [exact Hs | congruence | exact H]. }
    change (String c a ++ sep ++ b) with (String c (a ++ sep ++ b)) in *.
    cbn [split_scan]. rewrite N. rewrite IH.
    + now rewrite append_assoc.
    + simpl in H. apply orb_false_iff in H. tauto.
Qed.

Lemma split_scan_none (sep cur s : string) :
  contains sep s = false -> split_scan sep 0 cur s = [cur ++ s].
Proof.
  revert cur. induction s as [|c s IH]; intros cur H.
  - simpl. now rewrite append_empty_r.
  - rewrite contains_cons in H. apply orb_false_iff in H. destruct H as [N H].
    cbn [split_scan]. rewrite N, IH by exact H. now rewrite append_assoc.
Qed.

(** The separator written between [a] and [b] is where [split] cuts. *)
Lemma split_first (sep a b : string) :
  sep <> "" ->
  contains sep (a ++ init sep) = false ->
  split (a ++ sep ++ b) sep = a :: split b sep.
Proof. intros Hs H. unfold split. now rewrite split_scan_first. Qed.

Lemma split_none (sep s : string) :
  contains sep s = false -> split s sep = [s].
Proof. intros H. unfold split. now rewrite split_scan_none. Qed.

Lemma split_once (sep a b : string) :
  sep <> "" -> cut_once sep a b = true ->
  split (a ++ sep ++ b) sep = [a; b].
Proof.
  intros Hs H. unfold cut_once in H.
  apply andb_true_iff in H. destruct H as [H1 H2].
  apply negb_true_iff in H1, H2.
  rewrite split_first, split_none; auto.
Qed.

(** [split] on the line feed and [join] with it. *)
Lemma split_join_lines (l : string) (ls : list string) :
  forallb (fun x => negb (contains LF x)) (l :: ls) = true ->
  split (join LF (l :: ls)) LF = l :: ls.
Proof.
  revert l. induction ls as [|y ls IH]; intros l H.
  - simpl in H. rewrite andb_true_r in H. apply negb_true_iff in H.
    now apply split_none.
  - change (forallb (fun x => negb (contains LF x)) (l :: y :: ls))
      with (negb (contains LF l)
            && forallb (fun x => negb (contains LF x)) (y :: ls)) in H.
    apply andb_true_iff in H. destruct H as [Hl H].
    apply negb_true_iff in Hl.
    change (join LF (l :: y :: ls)) with (l ++ LF ++ join LF (y :: ls)).
    rewrite split_first.
    + now rewrite IH.
    + discriminate.
    + change (init LF) with "". now rewrite append_empty_r.
Qed.

Lemma lines_count_scan (cur s : string) :
  List.length (split_scan LF 0 cur s) = S (count_char "010" s).
Proof.
  revert cur. induction s as [|c s IH]; intros cur; [reflexivity|].
  cbn [split_scan count_char]. unfold LF at 1. cbn [prefix].
  destruct (ascii_dec "010" c) as [E|N].
  - subst c. replace (prefix "" s) with true by now destruct s.
    cbn [List.length]. change (String.length LF - 1) with 0.
    now rewrite IH.
  - apply Ascii.eqb_neq in N. rewrite N. now rewrite IH.
Qed.

(** A text has one line more than it has line feeds. *)
Lemma lines_count (s : string) :
  List.length (split s LF) = S (count_char "010" s).
Proof. apply lines_count_scan. Qed.

(** *** [strip] *)

Lemma digit_not_space (c : ascii) :
  ch_isdigit c = true -> ch_isspace c = false.
Proof.
  destruct c as [[] [] [] [] [] [] [] []]; vm_compute; congruence.
Qed.

Lemma lstrip_led (c : ascii) (s : string) :
  ch_isspace c = false -> lstrip (String c s) = String c s.
Proof. intros H. simpl. now rewrite H. Qed.

Lemma rstrip_led (c : ascii) (s : string) :
  ch_isspace c = false -> rstrip (String c s) = String c (rstrip s).
Proof. intros H. simpl. rewrite H. now destruct (rstrip s). Qed.

Lemma rstrip_cons_full (c : ascii) (s : string) :
  rstrip s <> "" -> rstrip (String c s) = String c (rstrip s).
Proof. intros H. simpl. destruct (rstrip s); [congruence | reflexivity]. Qed.

Lemma strip_led (c : ascii) (s : string) :
  ch_isspace c = false -> strip (String c s) = String c (rstrip s).
Proof. intros H. unfold strip. now rewrite lstrip_led, rstrip_led. Qed.

Lemma lstrip_shape (s : string) :
  lstrip s = "" \/
  exists c r, lstrip s = String c r /\ ch_isspace c = false.
Proof.
  induction s as [|c s IH]; [now left|].
  simpl. destruct (ch_isspace c) eqn:E; [exact IH|].
  right. now exists c, s.
Qed.

Lemma rstrip_idem (s : string) : rstrip (rstrip s) = rstrip s.
Proof.
  induction s as [|c s IH]; [reflexivity|].
  cbn [rstrip]. destruct (rstrip s) as [|d r] eqn:E.
  - destruct (ch_isspace c) eqn:Ec; [reflexivity|].
    simpl. now rewrite Ec.
  - rewrite rstrip_cons_full; rewrite IH; [reflexivity | discriminate].
Qed.

Lemma strip_idem (s : string) : strip (strip s) = strip s.
Proof.
  unfold strip. destruct (lstrip_shape s) as [E | (c & r & E & Hc)].
  - now rewrite E.
  - rewrite E, rstrip_led by exact Hc.
    rewrite lstrip_led by exact Hc.
    rewrite rstrip_led by exact Hc. now rewrite rstrip_idem.
Qed.

End PyFacts.

Import PyFacts.

(** ** PlaylistTextParser *)

Lemma entry_line_split (n title artist : string) :
  entry_line (n, title, artist) = (n ++ ". " ++ title) ++ " - " ++ artist.
Proof. unfold entry_line. now rewrite !append_assoc. Qed.

(** A line that reads in one way only adds its song to the list. *)
Lemma extract_loop_plain (e : entry) (rest : list string) (songs : list song) :
  plain_entry e = true ->
  extract_loop (entry_line e :: rest) songs
  = extract_loop rest (songs ++ [entry_song e])%list.
Proof.
  destruct e as [[n title] artist]. unfold plain_entry.
  intros H. apply andb_true_iff in H. destruct H as [H Hsep].
  apply andb_true_iff in H. destruct H as [H Hdot].
  apply andb_true_iff in H. destruct H as [Hled _].
  destruct n as [|c n]; [discriminate|]. simpl in Hled.
  cbn [extract_loop].
  rewrite entry_line_split.
  rewrite (split_once " - " _ _ ltac:(discriminate) Hsep).
  change (String c n ++ ". " ++ title) with (String c (n ++ ". " ++ title)).
  change (String c (n ++ ". " ++ title) ++ " - " ++ artist)
    with (String c ((n ++ ". " ++ title) ++ " - " ++ artist)).
  rewrite strip_led by now apply digit_not_space.
  cbn [truthy char_at String.get rbind isdigit all_digits].
  rewrite Hled. cbn [andb List.length Nat.eqb item nth_error rbind].
  change (String c (n ++ ". " ++ title)) with (String c n ++ ". " ++ title).
  rewrite (split_once ". " _ _ ltac:(discriminate) Hdot).
  reflexivity.
Qed.

Lemma extract_loop_plain_all (es : list entry) (songs : list song) :
  forallb plain_entry es = true ->
  extract_loop (map entry_line es) songs = Ok (songs ++ map entry_song es)%list.
Proof.
  revert songs. induction es as [|e es IH]; intros songs H.
  - simpl. now rewrite List.app_nil_r.
  - simpl in H. apply andb_true_iff in H. destruct H as [He H].
    cbn [map]. rewrite extract_loop_plain by exact He.
    rewrite IH by exact H. now rewrite <- List.app_assoc.
Qed.

Lemma plain_entry_no_LF (e : entry) :
  plain_entry e = true -> negb (contains LF (entry_line e)) = true.
Proof.
  destruct e as [[n title] artist]. unfold plain_entry. intros H.
  apply andb_true_iff in H. destruct H as [H _].
  apply andb_true_iff in H. destruct H as [H _].
  apply andb_true_iff in H. now destruct H as [_ H].
Qed.

(** C1, as amended: on a text whose lines are all of the shape
    ["<n>. <title> - <artist>"] and read in one way only (the ordinal
    starts with a digit, the leftmost [". "] of the line is the one after
    the ordinal and the title holds no other, the leftmost [" - "] is the
    one after the title and the artist holds no other), [extract_songs]
    returns the trimmed (title, artist) pairs of the lines, in the order
    of the lines. *)
Theorem extract_songs_plain_entries (es : list entry) :
  forallb plain_entry es = true ->
  extract_songs (join LF (map entry_line es)) = Ok (map entry_song es).
Proof.
  intros H. unfold extract_songs. destruct es as [|e es]; [reflexivity|].
  cbn [map]. rewrite split_join_lines.
  - change (entry_line e :: map entry_line es) with (map entry_line (e :: es)).
    now rewrite extract_loop_plain_all.
  - change (entry_line e :: map entry_line es) with (map entry_line (e :: es)).
    rewrite forallb_forall in *. intros l Hl.
    apply in_map_iff in Hl. destruct Hl as (x & <- & Hx).
    apply plain_entry_no_LF. now apply H.
Qed.

Lemma extract_songs_plain_entries_witness :
  forallb plain_entry [("1", "Happy", "Pharrell Williams");
                       ("2", "Good Vibrations", "The Beach Boys")] = true
  /\ extract_songs ("1. Happy - Pharrell Williams" ++ LF
                    ++ "2. Good Vibrations - The Beach Boys")
     = Ok [("Happy", "Pharrell Williams");
           ("Good Vibrations", "The Beach Boys")].
Proof.
  split; [reflexivity|].
  apply (extract_songs_plain_entries
           [("1", "Happy", "Pharrell Williams");
            ("2", "Good Vibrations", "The Beach Boys")]).
  reflexivity.
Defined.

(** C1, as stated, fails: a line of the shape whose title holds the
    separator [" - "] splits into three segments and is left out. *)
Lemma extract_songs_drops_dashed_title :
  entry_line ("1", "Up - Down", "The Band") = "1. Up - Down - The Band"
  /\ extract_songs "1. Up - Down - The Band" = Ok []
  /\ extract_songs "1. Up - Down - The Band"
     <> Ok [("Up - Down", "The Band")]
  /\ extract_songs "1. Up - Down - The Band"
     <> Ok [("Up", "Down - The Band")].
Proof. repeat split; discriminate. Qed.

(** C2: on a line that starts with a digit and splits on [" - "] into
    two segments, the first of which holds no [". "], [extract_songs]
    raises [IndexError]; the lines after it are not read. *)
Theorem extract_songs_raises_without_dot :
  extract_songs ("1. Happy - Pharrell Williams" ++ LF
                 ++ "2) Good Vibrations - The Beach Boys" ++ LF
                 ++ "3. Imagine - John Lennon")
  = Err IndexError.
Proof. reflexivity. Qed.

(** Every line of that kind raises, wherever it stands in the text. *)
Lemma extract_loop_raises_without_dot (c : ascii) (line p0 p1 : string)
  (rest : list string) (songs : list song) :
  ch_isdigit c = true ->
  split (String c line) " - " = [p0; p1] ->
  contains ". " p0 = false ->
  extract_loop (String c line :: rest) songs = Err IndexError.
Proof.
  intros Hc Hp Hd. cbn [extract_loop].
  rewrite strip_led by now apply digit_not_space.
  cbn [truthy char_at String.get rbind isdigit all_digits].
  rewrite Hc, Hp. cbn [andb List.length Nat.eqb item nth_error rbind].
  now rewrite (split_none ". " p0 Hd).
Qed.

(** The number of songs read is bounded by the number of lines. *)
Lemma extract_loop_length (lines : list string) (acc songs : list song) :
  extract_loop lines acc = Ok songs ->
  List.length songs <= List.length acc + List.length lines.
Proof.
  revert acc. induction lines as [|line rest IH]; intros acc H.
  - simpl in H. injection H as <-. lia.
  - cbn [extract_loop] in H. cbn [List.length].
    assert (Skip : extract_loop rest acc = Ok songs ->
                   List.length songs <= List.length acc + S (List.length rest)).
    { intros E. apply IH in E. lia. }
    destruct (truthy (strip line)); [|auto].
    destruct (char_at line 0) as [c|]; [|discriminate]. cbn [rbind] in H.
    destruct (isdigit c); [|auto].
    destruct (Nat.eqb (List.length (split line " - ")) 2); [|auto].
    destruct (item (split line " - ") 0) as [p0|]; [|discriminate].
    cbn [rbind] in H.
    destruct (item (split p0 ". ") 1) as [t|]; [|discriminate].
    cbn [rbind] in H.
    destruct (item (split line " - ") 1) as [p1|]; [|discriminate].
    cbn [rbind] in H.
    apply IH in H. rewrite List.length_app in H. simpl in H. lia.
Qed.

(** C4, as amended: when [extract_songs] returns, it returns at most one
    song per line of the text, that is at most one more than the text has
    line feeds; it has no bound of its own on the number of songs. *)
Theorem extract_songs_length (playlist_text : string) (songs : list song) :
  extract_songs playlist_text = Ok songs ->
  List.length songs <= S (count_char "010" playlist_text).
Proof.
  unfold extract_songs. intros H. apply extract_loop_length in H.
  rewrite lines_count in H. exact H.
Qed.

Lemma extract_songs_length_witness :
  extract_songs ("1. Happy - Pharrell Williams" ++ LF ++ "Enjoy!")
  = Ok [("Happy", "Pharrell Williams")]
  /\ List.length [("Happy", "Pharrell Williams")]
     <= S (count_char "010" ("1. Happy - Pharrell Williams" ++ LF ++ "Enjoy!")).
Proof.
  split; [reflexivity|].
  apply (extract_songs_length
           ("1. Happy - Pharrell Williams" ++ LF ++ "Enjoy!")
           [("Happy", "Pharrell Williams")]).
  reflexivity.
Defined.

(** C4, as stated, fails: a text of eleven numbered lines yields eleven
    songs. *)
Lemma extract_songs_eleven :
  exists songs, extract_songs eleven_songs = Ok songs
                /\ ~ List.length songs <= 10.
Proof.
  eexists. split; [reflexivity|]. simpl. lia.
Qed.

(** ** PreferenceExtractor *)

Lemma item_error {A : Type} (l : list A) (i : nat) (e : exn) :
  item l i = Err e -> e = IndexError.
Proof. unfold item. destruct (nth_error l i); congruence. Qed.

(** The only exception the split on the markers can raise. *)
Lemma parse_mood_genre_error (response_text : string) (e : exn) :
  parse_mood_genre response_text = Err e -> e = IndexError.
Proof.
  unfold parse_mood_genre.
  destruct (contains "mood:" (lower response_text)
            && contains "genre:" (lower response_text)); [|discriminate].
  destruct (item (split response_text "Mood:") 1) as [a|x] eqn:E1;
    cbn [rbind]; [|intros [= <-]; exact (item_error _ _ _ E1)].
  destruct (item (split a "Genre:") 0) as [b|x] eqn:E2;
    cbn [rbind]; [|intros [= <-]; exact (item_error _ _ _ E2)].
  destruct (item (split response_text "Genre:") 1) as [c|x] eqn:E3;
    cbn [rbind]; [discriminate | intros [= <-]; exact (item_error _ _ _ E3)].
Qed.

(** What the split yields has been trimmed. *)
Lemma parse_mood_genre_trimmed (response_text m g : string) :
  parse_mood_genre response_text = Ok (Some m, Some g) ->
  strip m = m /\ strip g = g.
Proof.
  unfold parse_mood_genre.
  destruct (contains "mood:" (lower response_text)
            && contains "genre:" (lower response_text)); [|discriminate].
  destruct (item (split response_text "Mood:") 1) as [a|]; [|discriminate].
  cbn [rbind].
  destruct (item (split a "Genre:") 0) as [b|]; [|discriminate].
  cbn [rbind].
  destruct (item (split response_text "Genre:") 1) as [c|]; [|discriminate].
  cbn [rbind]. intros [= <- <-]. split; apply strip_idem.
Qed.

Lemma truthy_nonempty (t : string) : truthy t = true -> t <> "".
Proof. destruct t; [discriminate | discriminate]. Qed.

Lemma complete_trimmed (response_text m g : string) :
  preference_extractor response_text = Complete m g ->
  (m <> "" /\ strip m = m) /\ (g <> "" /\ strip g = g).
Proof.
  unfold preference_extractor.
  destruct (contains FILTER_MARKER (lower response_text)); [discriminate|].
  destruct (parse_mood_genre response_text) as [[[m'|] [g'|]]|] eqn:E;
    try discriminate.
  destruct (truthy m') eqn:Tm; [|discriminate].
  destruct (truthy g') eqn:Tg; [|discriminate].
  cbn [andb]. intros [= <- <-].
  destruct (parse_mood_genre_trimmed _ _ _ E) as [Sm Sg].
  auto using truthy_nonempty.
Qed.

(** The split of a text that holds the markers as the source writes
    them, ["Mood:"] then ["Genre:"], each of them once: the text between
    the two markers, trimmed, and the text after the genre marker,
    trimmed. *)
Theorem parse_mood_genre_exact_markers (pre m g : string) :
  cut_once "Mood:" pre (m ++ "Genre:" ++ g) = true ->
  cut_once "Genre:" (pre ++ "Mood:" ++ m) g = true ->
  parse_mood_genre (pre ++ "Mood:" ++ m ++ "Genre:" ++ g)
  = Ok (Some (strip m), Some (strip g)).
Proof.
  intros HM HG. unfold parse_mood_genre.
  assert (GM : contains "mood:" (lower (pre ++ "Mood:" ++ m ++ "Genre:" ++ g))
               = true).
  { rewrite !lower_app. apply contains_here. }
  assert (GG : contains "genre:" (lower (pre ++ "Mood:" ++ m ++ "Genre:" ++ g))
               = true).
  { replace (pre ++ "Mood:" ++ m ++ "Genre:" ++ g)
      with ((pre ++ "Mood:" ++ m) ++ "Genre:" ++ g) by now rewrite !append_assoc.
    rewrite (lower_app (pre ++ "Mood:" ++ m)), (lower_app "Genre:").
    apply contains_here. }
  rewrite GM, GG. cbn [andb].
  rewrite (split_once "Mood:" pre (m ++ "Genre:" ++ g) ltac:(discriminate) HM).
  cbn [item nth_error rbind].
  assert (Hm : contains "Genre:" (m ++ init "Genre:") = false).
  { unfold cut_once in HG. apply andb_true_iff in HG. destruct HG as [HG _].
    apply negb_true_iff in HG.
    replace ((pre ++ "Mood:" ++ m) ++ init "Genre:")
      with ((pre ++ "Mood:") ++ m ++ init "Genre:") in HG
      by now rewrite !append_assoc.
    exact (contains_tail _ _ _ HG). }
  rewrite (split_first "Genre:" m g ltac:(discriminate) Hm).
  cbn [item nth_error rbind].
  replace (pre ++ "Mood:" ++ m ++ "Genre:" ++ g)
    with ((pre ++ "Mood:" ++ m) ++ "Genre:" ++ g) by now rewrite !append_assoc.
  rewrite (split_once "Genre:" _ g ltac:(discriminate) HG).
  reflexivity.
Qed.

Lemma parse_mood_genre_exact_markers_witness :
  cut_once "Mood:" "" (" happy" ++ LF ++ "Genre:" ++ " pop") = true
  /\ cut_once "Genre:" ("" ++ "Mood:" ++ " happy" ++ LF) " pop" = true
  /\ parse_mood_genre ("Mood: happy" ++ LF ++ "Genre: pop")
     = Ok (Some "happy", Some "pop").
Proof.
  split; [reflexivity|]. split; [reflexivity|].
  apply (parse_mood_genre_exact_markers "" (" happy" ++ LF) " pop");
    reflexivity.
Defined.

(** C3, as stated, fails: markers written in lower case pass the test on
    the lowered text, but the text is split on ["Mood:"] and ["Genre:"]
    as written, which it does not hold; the handler then answers that it
    could not determine mood and genre. *)
Lemma lower_case_markers_not_split :
  contains "mood:" (lower ("mood: happy" ++ LF ++ "genre: pop")) = true
  /\ contains "genre:" (lower ("mood: happy" ++ LF ++ "genre: pop")) = true
  /\ contains FILTER_MARKER (lower ("mood: happy" ++ LF ++ "genre: pop"))
     = false
  /\ parse_mood_genre ("mood: happy" ++ LF ++ "genre: pop") = Err IndexError
  /\ parse_mood_genre ("mood: happy" ++ LF ++ "genre: pop")
     <> Ok (Some "happy", Some "pop")
  /\ fst (music_assistant_llm "I am happy and I like pop"
            (on_air ("mood: happy" ++ LF ++ "genre: pop") "" true))
     = Ok UNDETERMINED_MESSAGE.
Proof. repeat split. discriminate. Qed.

(** A text that passes the test on the lowered text but does not hold
    ["Mood:"] as written is not split. *)
Lemma parse_mood_genre_other_case (response_text : string) :
  contains "mood:" (lower response_text) = true ->
  contains "genre:" (lower response_text) = true ->
  contains "Mood:" response_text = false ->
  parse_mood_genre response_text = Err IndexError.
Proof.
  intros GM GG N. unfold parse_mood_genre. rewrite GM, GG. cbn [andb].
  now rewrite (split_none "Mood:" response_text N).
Qed.

(** *** The marker of filtered content *)

Lemma append_last_inj (a b : string) (x y : ascii) :
  a ++ String x "" = b ++ String y "" -> a = b /\ x = y.
Proof.
  revert b. induction a as [|c a IH]; intros [|d b] H; simpl in H.
  - injection H as ->. now split.
  - injection H as -> H. destruct b; discriminate.
  - injection H as -> H. destruct a; discriminate.
  - injection H as -> H. apply IH in H. destruct H as [-> ->]. now split.
Qed.

Lemma lstrip_keeps (a : string) (c : ascii) (r : string) :
  ch_isspace c = false ->
  exists a', lstrip (a ++ String c r) = a' ++ String c r.
Proof.
  intros Hc. induction a as [|d a IH].
  - exists "". simpl. now rewrite Hc.
  - simpl. destruct (ch_isspace d); [exact IH|].
    now exists (String d a).
Qed.

Lemma rstrip_keeps (x : string) (l : ascii) (b : string) :
  ch_isspace l = false ->
  rstrip (x ++ String l b) = x ++ String l (rstrip b).
Proof.
  intros Hl. induction x as [|d x IH].
  - simpl append. now apply rstrip_led.
  - change (String d x ++ String l b) with (String d (x ++ String l b)).
    rewrite rstrip_cons_full; rewrite IH; [reflexivity|].
    destruct x; discriminate.
Qed.

(** A piece of text that starts and ends with a character that is not
    white space survives [strip]. *)
Lemma strip_keeps (a b : string) (c l : ascii) (m0 m1 : string) :
  ch_isspace c = false -> ch_isspace l = false ->
  String c m1 = m0 ++ String l "" ->
  exists a', strip (a ++ String c m1 ++ b)
             = a' ++ String c m1 ++ rstrip b.
Proof.
  intros Hc Hl E. unfold strip.
  destruct (lstrip_keeps a c (m1 ++ b) Hc) as [a' Ea].
  exists a'. change (String c m1 ++ b) with (String c (m1 ++ b)).
  rewrite Ea. change (String c (m1 ++ b)) with (String c m1 ++ b).
  rewrite E. rewrite (append_assoc m0), <- (append_assoc a' m0).
  cbn [append]. rewrite rstrip_keeps by exact Hl.
  now rewrite !append_assoc.
Qed.

Lemma lowered_not_space (c d : ascii) :
  ch_lower c = d -> ch_isspace d = false -> ch_isspace c = false.
Proof.
  intros E Hd. destruct (ch_isspace c) eqn:Hc; [|reflexivity].
  rewrite (space_not_lowered c Hc) in E. congruence.
Qed.

(** The marker, in whatever letter case, is still found after [strip]
    and [lower]. *)
Lemma filter_marker_found (text : string) :
  occurs_any_case FILTER_MARKER text ->
  contains FILTER_MARKER (lower (strip text)) = true.
Proof.
  intros (a & m & b & -> & Hm).
  destruct m as [|c m1]; [discriminate|].
  destruct (init_last c m1) as [l El].
  assert (Hc : ch_isspace c = false).
  { simpl in Hm. injection Hm as Hc _.
    now apply (lowered_not_space c "b"). }
  assert (Hl : ch_isspace l = false).
  { rewrite El, lower_app in Hm.
    change FILTER_MARKER
      with ("blocked by content filterin" ++ String "g" "") in Hm.
    cbn [lower] in Hm. apply append_last_inj in Hm. destruct Hm as [_ Hm].
    now apply (lowered_not_space l "g"). }
  destruct (strip_keeps a b c l _ m1 Hc Hl El) as [a' ->].
  rewrite !lower_app, Hm. apply contains_here.
Qed.

(** ** Statements that keep the session *)

Section Frame.

Context {P : providers}.

Lemma keeps_ret {A} (a : A) : keeps_session (ret (P := P) a).
Proof. intros s. reflexivity. Qed.

Lemma keeps_raise {A} (e : exn) : keeps_session (raise (P := P) (A := A) e).
Proof. intros s. reflexivity. Qed.

Lemma keeps_lift {A} (r : result A) : keeps_session (lift (P := P) r).
Proof. intros s. reflexivity. Qed.

Lemma keeps_call {A} (f : World P -> result A * World P) :
  keeps_session (call f).
Proof. intros s. unfold call. now destruct (f (world s)). Qed.

Lemma keeps_bind {A B} (m : M P A) (k : A -> M P B) :
  keeps_session m -> (forall a, keeps_session (k a)) ->
  keeps_session (bind m k).
Proof.
  intros Hm Hk s. unfold bind. specialize (Hm s).
  destruct (m s) as [[a|e] s']; simpl in *; [|exact Hm].
  now rewrite Hk.
Qed.

Lemma keeps_try_except {A} (body : M P A) (handler : exn -> M P A) :
  keeps_session body -> (forall e, keeps_session (handler e)) ->
  keeps_session (try_except body handler).
Proof.
  intros Hb Hh s. unfold try_except. specialize (Hb s).
  destruct (body s) as [[a|e] s']; simpl in *; [exact Hb|].
  now rewrite Hh.
Qed.

End Frame.

Create HintDb frame.

#[export] Hint Resolve keeps_ret keeps_raise keeps_lift keeps_call : frame.

Ltac frame_step :=
  first
    [ solve [auto 1 with frame nocore]
    | progress cbv zeta
    | apply keeps_bind; [|intros ?]
    | apply keeps_try_except; [|intros ?]
    | match goal with
      | |- keeps_session (match ?x with _ => _ end) => destruct x
      end ].

Ltac frame := repeat frame_step.

Section Pipeline.

Context {P : providers}.

Lemma keeps_search_loop (songs : list song) (track_uris : list string) :
  keeps_session (search_loop (P := P) songs track_uris).
Proof.
  revert track_uris. induction songs as [|[title artist] rest IH];
    intros track_uris; cbn [search_loop]; frame.
Qed.

Lemma keeps_search_songs (songs : list song) :
  keeps_session (search_songs (P := P) songs).
Proof. apply keeps_search_loop. Qed.

Lemma keeps_create_spotify_playlist (name : string) (uris : list string) :
  keeps_session (create_spotify_playlist (P := P) name uris).
Proof. unfold create_spotify_playlist. frame. Qed.

Lemma keeps_generate_playlist (m g : string) :
  keeps_session (generate_playlist (P := P) m g).
Proof. unfold generate_playlist. frame. Qed.

#[local] Hint Resolve keeps_search_songs keeps_create_spotify_playlist
  keeps_generate_playlist : frame.

(** *** TrackResolver *)

(** The top match of an answer is the first of the tracks that the loop
    reads from it. *)
Lemma top_match_tracks (results : search_results) :
  top_match (Ok results)
  = match tracks_of results with
    | t :: _ => Some (uri t)
    | [] => None
    end.
Proof. destruct results as [[[[[|t l]|]]|]]; reflexivity. Qed.

Lemma search_loop_resolves (songs : list song) (track_uris : list string)
  (s : store P) :
  search_loop songs track_uris s
  = (Ok (track_uris ++ resolved (fst (lookups P songs (world s))))%list,
     in_world s (snd (lookups P songs (world s)))).
Proof.
  revert track_uris s. induction songs as [|[title artist] rest IH];
    intros track_uris s.
  - simpl. rewrite List.app_nil_r. now destruct s.
  - cbn [search_loop lookups]. unfold bind at 1, try_except, bind, call.
    destruct (sp_search P ("track:" ++ title ++ " artist:" ++ artist)
                (world s)) as [[results|e] w1].
    + destruct (lookups P rest w1) as [rs w2] eqn:L.
      cbn [fst snd resolved]. rewrite top_match_tracks.
      destruct (tracks_of results) as [|t ts]; unfold ret;
        rewrite IH; cbn [world sess]; rewrite L; cbn [fst snd];
        [reflexivity|].
      now rewrite <- List.app_assoc.
    + destruct (lookups P rest w1) as [rs w2] eqn:L.
      cbn [fst snd resolved top_match]. unfold ret.
      rewrite IH. cbn [world sess]. rewrite L. reflexivity.
Qed.

Lemma lookups_length (songs : list song) (w : World P) :
  List.length (fst (lookups P songs w)) = List.length songs.
Proof.
  revert w. induction songs as [|[title artist] rest IH]; intros w;
    [reflexivity|].
  cbn [lookups].
  destruct (sp_search P ("track:" ++ title ++ " artist:" ++ artist) w)
    as [r w1].
  specialize (IH w1). destruct (lookups P rest w1) as [rs w2].
  simpl in *. now rewrite IH.
Qed.

Lemma resolved_length (answers : list (result search_results)) :
  List.length (resolved answers) <= List.length answers.
Proof.
  induction answers as [|r rs IH]; [reflexivity|].
  simpl. destruct (top_match r); simpl; lia.
Qed.

(** C6: whatever the catalog does, [search_songs] returns; every song of
    the list is looked up, one lookup each, in the order of the list,
    also after a lookup that raised; the list returned holds the
    identifier of the top match of every lookup that answered with at
    least one track, in the order of the songs, and nothing else, so that
    it is no longer than the list of songs. *)
Theorem search_songs_resolves (songs : list song) (s : store P) :
  search_songs songs s
  = (Ok (resolved (fst (lookups P songs (world s)))),
     in_world s (snd (lookups P songs (world s))))
  /\ List.length (fst (lookups P songs (world s))) = List.length songs
  /\ List.length (resolved (fst (lookups P songs (world s))))
     <= List.length songs.
Proof.
  split; [|split].
  - unfold search_songs. now rewrite search_loop_resolves.
  - apply lookups_length.
  - rewrite <- (lookups_length songs (world s)). apply resolved_length.
Qed.

End Pipeline.

(** ** PlaylistPublisher *)

Section Publisher.

Context {P : providers}.

Lemma create_spotify_playlist_returns (playlist_name : string)
  (track_uris : list string) (s : store P) :
  exists r w',
    create_spotify_playlist playlist_name track_uris s = (Ok r, in_world s w').
Proof.
  unfold create_spotify_playlist, try_except, bind, call, ret, in_world.
  cbn [sess world].
  destruct (SpotifyOAuth P (world s)) as [[am|e] w1]; [|now eauto].
  cbn [sess world].
  destruct (Spotify P am w1) as [[c|e] w2]; [|now eauto].
  cbn [sess world].
  destruct (user_playlist_create P c SPOTIFY_USER_ID playlist_name true
              PLAYLIST_DESCRIPTION w2) as [[pl|e] w3]; [|now eauto].
  cbn [sess world].
  destruct track_uris as [|u us]; [now eauto|].
  cbn [sess world].
  destruct (playlist_add_items P c (playlist_id pl) (u :: us) w3)
    as [[[]|e] w4]; now eauto.
Qed.

(** C7: whatever the catalog does, [create_spotify_playlist] returns and
    does not raise; it returns [None] when the authentication, the
    creation of the playlist or the addition of the tracks raises, and
    the public link of the playlist when they all succeed, the addition
    being skipped when there is no track. *)
Theorem create_spotify_playlist_outcome (playlist_name : string)
  (track_uris : list string) (s : store P) :
  (exists r w',
     create_spotify_playlist playlist_name track_uris s
     = (Ok r, in_world s w'))
  /\ (forall e w1,
        SpotifyOAuth P (world s) = (Err e, w1) ->
        create_spotify_playlist playlist_name track_uris s
        = (Ok None, in_world s w1))
  /\ (forall am w1 e w2,
        SpotifyOAuth P (world s) = (Ok am, w1) ->
        Spotify P am w1 = (Err e, w2) ->
        create_spotify_playlist playlist_name track_uris s
        = (Ok None, in_world s w2))
  /\ (forall am w1 c w2 e w3,
        SpotifyOAuth P (world s) = (Ok am, w1) ->
        Spotify P am w1 = (Ok c, w2) ->
        user_playlist_create P c SPOTIFY_USER_ID playlist_name true
          PLAYLIST_DESCRIPTION w2 = (Err e, w3) ->
        create_spotify_playlist playlist_name track_uris s
        = (Ok None, in_world s w3))
  /\ (forall am w1 c w2 pl w3,
        SpotifyOAuth P (world s) = (Ok am, w1) ->
        Spotify P am w1 = (Ok c, w2) ->
        user_playlist_create P c SPOTIFY_USER_ID playlist_name true
          PLAYLIST_DESCRIPTION w2 = (Ok pl, w3) ->
        (track_uris = [] ->
         create_spotify_playlist playlist_name track_uris s
         = (Ok (Some (spotify (external_urls pl))), in_world s w3))
        /\ (forall e w4,
              track_uris <> [] ->
              playlist_add_items P c (playlist_id pl) track_uris w3
              = (Err e, w4) ->
              create_spotify_playlist playlist_name track_uris s
              = (Ok None, in_world s w4))
        /\ (forall u w4,
              track_uris <> [] ->
              playlist_add_items P c (playlist_id pl) track_uris w3
              = (Ok u, w4) ->
              create_spotify_playlist playlist_name track_uris s
              = (Ok (Some (spotify (external_urls pl))), in_world s w4))).
Proof.
  split; [apply create_spotify_playlist_returns|].
  unfold create_spotify_playlist, try_except, bind, call, ret, in_world.
  split; [|split; [|split]].
  - intros e w1 H1. now rewrite H1.
  - intros am w1 e w2 H1 H2. rewrite H1. cbn [sess world]. now rewrite H2.
  - intros am w1 c w2 e w3 H1 H2 H3. rewrite H1. cbn [sess world].
    rewrite H2. cbn [sess world]. now rewrite H3.
  - intros am w1 c w2 pl w3 H1 H2 H3.
    rewrite H1. cbn [sess world]. rewrite H2. cbn [sess world].
    rewrite H3. cbn [sess world].
    split; [|split].
    + now intros ->.
    + intros e w4 N H4. destruct track_uris; [congruence|].
      cbn [sess world]. now rewrite H4.
    + intros u w4 N H4. destruct track_uris; [congruence|].
      cbn [sess world]. now rewrite H4.
Qed.

End Publisher.

Lemma create_spotify_playlist_outcome_witness :
  create_spotify_playlist "calm jazz Playlist" ["spotify:track:1"]
    (on_air "" "" true)
  = (Ok (Some "https://open.spotify.com/playlist/calm jazz Playlist"),
     in_world (on_air "" "" true)
       {| assistant_reply := ""; playlist_reply := ""; catalog_up := true;
          journal := ["oauth"; "client"; "create"; "add"] |}).
Proof.
  destruct (create_spotify_playlist_outcome (P := scripted)
              "calm jazz Playlist" ["spotify:track:1"] (on_air "" "" true))
    as (_ & _ & _ & _ & H).
  edestruct H as (_ & _ & H3); [reflexivity | reflexivity | reflexivity |].
  apply (H3 tt); [discriminate | reflexivity].
Defined.

(** ** ConversationOrchestrator *)

Ltac handler_start G :=
  unfold music_assistant_llm;
  unfold bind at 1; unfold get_preferences at 1;
  unfold bind at 1; unfold call at 1; rewrite G; cbv beta iota;
  try (unfold bind at 1; unfold lift at 1; cbn [stripped_response];
       cbv beta iota).

Section Handler.

Context {P : providers}.

#[local] Hint Resolve keeps_search_songs keeps_create_spotify_playlist
  keeps_generate_playlist : frame.

(** When the generation of the reply raises, so does the handler. *)
Lemma handler_generate_raises (message : string) (s : store P) (e : exn)
  (w1 : World P) :
  generate P AssistantPrompt
    (assistant_query message (preferences (sess s))) (world s) = (Err e, w1) ->
  music_assistant_llm message s = (Err e, in_world s w1).
Proof. intros G. handler_start G. reflexivity. Qed.

(** When what [generate] hands back cannot be read, the handler raises
    [AttributeError]. *)
Lemma handler_unusable (message : string) (s : store P) (w1 : World P) :
  generate P AssistantPrompt
    (assistant_query message (preferences (sess s))) (world s)
  = (Ok Unusable, w1) ->
  music_assistant_llm message s = (Err AttributeError, in_world s w1).
Proof. intros G. handler_start G. reflexivity. Qed.

(** On an outcome that stops it, the handler replies and leaves the
    session alone; the world has seen the one call to [generate]. *)
Lemma handler_stops (message : string) (s : store P) (r : generation)
  (w1 : World P) :
  generate P AssistantPrompt
    (assistant_query message (preferences (sess s))) (world s) = (Ok (Dict r), w1) ->
  stops (preference_extractor (strip (response_or_empty r))) = true ->
  music_assistant_llm message s
  = (Ok (early_reply (strip (response_or_empty r))
           (preference_extractor (strip (response_or_empty r)))),
     in_world s w1).
Proof.
  intros G H. handler_start G. unfold preference_extractor in *.
  destruct (contains FILTER_MARKER (lower (strip (response_or_empty r))));
    [reflexivity|].
  destruct (parse_mood_genre (strip (response_or_empty r)))
    as [[[m|] [g|]]|e] eqn:E.
  - destruct (truthy m) eqn:Tm, (truthy g) eqn:Tg; cbn [andb] in H;
      try discriminate; unfold falsy; rewrite Tm, Tg; reflexivity.
  - unfold falsy. now rewrite orb_true_r.
  - reflexivity.
  - reflexivity.
  - now rewrite (parse_mood_genre_error _ _ E).
Qed.

(** On a complete outcome the session the handler leaves is the one it
    found with both preferences set. *)
Lemma handler_commits (message : string) (s : store P) (r : generation)
  (w1 : World P) (m g : string) :
  generate P AssistantPrompt
    (assistant_query message (preferences (sess s))) (world s) = (Ok (Dict r), w1) ->
  preference_extractor (strip (response_or_empty r)) = Complete m g ->
  sess (snd (music_assistant_llm message s)) = committed (sess s) m g.
Proof.
  intros G H. handler_start G. unfold preference_extractor in *.
  destruct (contains FILTER_MARKER (lower (strip (response_or_empty r))));
    [discriminate|].
  destruct (parse_mood_genre (strip (response_or_empty r)))
    as [[[m'|] [g'|]]|e] eqn:E; try discriminate.
  destruct (truthy m') eqn:Tm, (truthy g') eqn:Tg; cbn [andb] in H;
    try discriminate.
  injection H as -> ->. unfold falsy. rewrite Tm, Tg. cbn [negb orb].
  unfold bind at 1. unfold set_mood at 1.
  unfold bind at 1. unfold set_genre at 1. cbn [sess world state preferences mood genre].
  match goal with
  | |- sess (snd (?X ?s2)) = _ =>
      assert (K : keeps_session X)
  end.
  { frame. }
  rewrite K. reflexivity.
Qed.

(** Whatever happens, the handler leaves the session as it found it or
    with both preferences set to non-empty, trimmed texts. *)
Lemma handler_step (message : string) (s : store P) :
  sess (snd (music_assistant_llm message s)) = sess s
  \/ exists m g,
       (m <> "" /\ strip m = m) /\ (g <> "" /\ strip g = g)
       /\ sess (snd (music_assistant_llm message s)) = committed (sess s) m g.
Proof.
  destruct (generate P AssistantPrompt
              (assistant_query message (preferences (sess s))) (world s))
    as [[[r|]|e] w1] eqn:G.
  - destruct (preference_extractor (strip (response_or_empty r)))
      as [| | |m g] eqn:O.
    1-3: left; rewrite (handler_stops _ _ _ _ G); rewrite O; reflexivity.
    right. exists m, g.
    destruct (complete_trimmed _ _ _ O) as [Hm Hg].
    split; [exact Hm|]. split; [exact Hg|].
    exact (handler_commits _ _ _ _ _ _ G O).
  - left. now rewrite (handler_unusable _ _ _ G).
  - left. now rewrite (handler_generate_raises _ _ _ _ G).
Qed.



(** C5: when the reply of the assistant prompt holds the marker of
    filtered content, in whatever letter case and whatever else it holds,
    the handler returns the retry message; the session is as it was, and
    the world is as the one call to [generate] left it: the text is not
    split on the markers, no preference is set, no playlist is asked
    for. *)
Theorem filtered_reply_is_retry (message : string) (s : store P)
  (r : generation) (w1 : World P) :
  generate P AssistantPrompt
    (assistant_query message (preferences (sess s))) (world s) = (Ok (Dict r), w1) ->
  occurs_any_case FILTER_MARKER (response_or_empty r) ->
  music_assistant_llm message s = (Ok RETRY_MESSAGE, in_world s w1).
Proof.
  intros G H. apply filter_marker_found in H.
  rewrite (handler_stops _ _ _ _ G); unfold preference_extractor; rewrite H;
    reflexivity.
Qed.

(** C9: on a filtered reply, on an incomplete one and on one that cannot
    be split, the handler returns its reply (the retry message, the text
    of the reply, the message that mood and genre could not be
    determined) and the session is as it was before the message; when
    the preferences differ after the message, the reply was complete and
    both preferences hold what was read from it. *)
Theorem early_outcomes_keep_preferences (message : string) (s : store P)
  (r : generation) (w1 : World P) :
  generate P AssistantPrompt
    (assistant_query message (preferences (sess s))) (world s) = (Ok (Dict r), w1) ->
  (preference_extractor (strip (response_or_empty r)) = Filtered ->
   music_assistant_llm message s = (Ok RETRY_MESSAGE, in_world s w1))
  /\ (preference_extractor (strip (response_or_empty r)) = Incomplete ->
      music_assistant_llm message s
      = (Ok (strip (response_or_empty r)), in_world s w1))
  /\ (preference_extractor (strip (response_or_empty r)) = Unparsed ->
      music_assistant_llm message s = (Ok UNDETERMINED_MESSAGE, in_world s w1))
  /\ (preferences (sess (snd (music_assistant_llm message s)))
      <> preferences (sess s) ->
      exists m g,
        preference_extractor (strip (response_or_empty r)) = Complete m g
        /\ m <> "" /\ g <> ""
        /\ preferences (sess (snd (music_assistant_llm message s)))
           = {| mood := Some m; genre := Some g |}).
Proof.
  intros G. repeat split.
  1-3: intros O; rewrite (handler_stops _ _ _ _ G); rewrite O; reflexivity.
  intros N.
  destruct (preference_extractor (strip (response_or_empty r)))
    as [| | |m g] eqn:O.
  1-3: exfalso; apply N; rewrite (handler_stops _ _ _ _ G); rewrite O;
       reflexivity.
  exists m, g. destruct (complete_trimmed _ _ _ O) as [[Hm _] [Hg _]].
  rewrite (handler_commits _ _ _ _ _ _ G O). now repeat split.
Qed.


(** *** The reply that carries the playlist *)

Lemma listen_is_not_degraded (text url : string) :
  text ++ LISTEN_PREFIX ++ url <> text ++ DEGRADED_NOTICE.
Proof.
  induction text as [|c text IH]; simpl.
  - discriminate.
  - intros H. injection H as H. now apply IH.
Qed.

(** X14: when the parser returns, the reply is the playlist text followed by
    the link that [create_spotify_playlist] returned, or by the notice
    when it returned none. *)
Lemma handler_reply_with_playlist (message : string) (s : store P)
  (r : generation) (w1 : World P) (m g : string) (r2 : generation)
  (w2 : World P) (songs : list song) :
  generate P AssistantPrompt
    (assistant_query message (preferences (sess s))) (world s) = (Ok (Dict r), w1) ->
  preference_extractor (strip (response_or_empty r)) = Complete m g ->
  generate P PlaylistPrompt ("Mood: " ++ m ++ ", Genre: " ++ g) w1
  = (Ok (Dict r2), w2) ->
  truthy (strip (response_or_empty r2)) = true ->
  extract_songs (strip (response_or_empty r2)) = Ok songs ->
  exists (link : option string) (s3 s4 : store P),
    search_songs songs {| sess := committed (sess s) m g; world := w2 |}
    = (Ok (resolved (fst (lookups P songs w2))), s3)
    /\ create_spotify_playlist (m ++ " " ++ g ++ " Playlist")
         (resolved (fst (lookups P songs w2))) s3 = (Ok link, s4)
    /\ music_assistant_llm message s
       = (Ok (strip (response_or_empty r2)
              ++ match link with
                 | Some url =>
                     if truthy url then LISTEN_PREFIX ++ url
                     else DEGRADED_NOTICE
                 | None => DEGRADED_NOTICE
                 end),
          s4).
Proof.
  intros G O G2 T E. handler_start G. unfold preference_extractor in O.
  destruct (contains FILTER_MARKER (lower (strip (response_or_empty r))));
    [discriminate|].
  destruct (parse_mood_genre (strip (response_or_empty r)))
    as [[[m'|] [g'|]]|e]; try discriminate.
  destruct (truthy m') eqn:Tm, (truthy g') eqn:Tg; cbn [andb] in O;
    try discriminate.
  injection O as -> ->. unfold falsy at 1 2. rewrite Tm, Tg. cbn [negb orb].
  unfold bind at 1. unfold set_mood at 1.
  unfold bind at 1. unfold set_genre at 1.
  cbn [sess world state preferences mood genre].
  unfold bind at 1. unfold generate_playlist.
  unfold bind at 1. unfold call at 1. cbn [sess world]. rewrite G2.
  cbv beta iota. unfold bind at 1. unfold lift at 1.
  cbn [stripped_response]. cbv beta iota. rewrite T. cbn [negb].
  unfold bind at 1. unfold lift at 1. rewrite E. unfold ret at 1.
  unfold falsy at 1. rewrite T. cbn [negb].
  unfold bind at 1. unfold search_songs.
  change {| state := state (sess s);
            preferences := {| mood := Some m; genre := Some g |} |}
    with (committed (sess s) m g).
  rewrite !search_loop_resolves. cbn [app sess world].
  destruct (create_spotify_playlist_returns
              (m ++ " " ++ g ++ " Playlist")
              (resolved (fst (lookups P songs w2)))
              (in_world {| sess := committed (sess s) m g; world := w2 |}
                 (snd (lookups P songs w2))))
    as (link & w4 & C).
  eexists link, _, _. split; [reflexivity|]. split; [exact C|].
  unfold bind at 1. rewrite C. destruct link as [url|]; [|reflexivity].
  destruct (truthy url); reflexivity.
Qed.

End Handler.

Lemma filtered_reply_is_retry_witness :
  music_assistant_llm "I feel relaxed, love jazz"
    (on_air "Request BLOCKED by Content Filtering. Mood: calm Genre: jazz"
       "" true)
  = (Ok RETRY_MESSAGE,
     in_world
       (on_air "Request BLOCKED by Content Filtering. Mood: calm Genre: jazz"
          "" true)
       (noted "generate"
          (world (on_air
                    "Request BLOCKED by Content Filtering. Mood: calm Genre: jazz"
                    "" true)))).
Proof.
  apply (filtered_reply_is_retry (P := scripted) "I feel relaxed, love jazz"
           (on_air "Request BLOCKED by Content Filtering. Mood: calm Genre: jazz"
              "" true)
           {| response :=
                Some "Request BLOCKED by Content Filtering. Mood: calm Genre: jazz" |}).
  - reflexivity.
  - exists "Request ", "BLOCKED by Content Filtering", ". Mood: calm Genre: jazz".
    split; reflexivity.
Defined.

Lemma early_outcomes_keep_preferences_witness :
  music_assistant_llm "hello"
    (on_air "Which genre do you like?" "" true)
  = (Ok "Which genre do you like?",
     in_world (on_air "Which genre do you like?" "" true)
       (noted "generate"
          (world (on_air "Which genre do you like?" "" true)))).
Proof.
  destruct (early_outcomes_keep_preferences (P := scripted) "hello"
              (on_air "Which genre do you like?" "" true)
              {| response := Some "Which genre do you like?" |}
              (noted "generate"
                 (world (on_air "Which genre do you like?" "" true)))
              eq_refl)
    as (_ & H & _).
  apply H. reflexivity.
Defined.


(** C8: with the preferences read and set and a playlist text that is
    not empty, the handler still raises [IndexError] and gives no reply
    when a numbered line of the playlist has no [". "] after its number,
    for want of the guard that C2 asks of [extract_songs]. *)
Theorem handler_raises_on_undotted_entry :
  fst (music_assistant_llm "I feel relaxed, love jazz"
         (on_air ("Mood: relaxed" ++ LF ++ "Genre: jazz")
            "1) So What - Miles Davis" true))
  = Err IndexError
  /\ preferences
       (sess (snd (music_assistant_llm "I feel relaxed, love jazz"
                     (on_air ("Mood: relaxed" ++ LF ++ "Genre: jazz")
                        "1) So What - Miles Davis" true))))
     = {| mood := Some "relaxed"; genre := Some "jazz" |}.
Proof. split; reflexivity. Qed.

(** * Further properties *)

(** ** More facts on strings *)

Module PySplit.

Lemma prefix_length (p s : string) :
  prefix p s = true -> String.length p <= String.length s.
Proof.
  intros H. destruct (prefix_inv _ _ H) as [r ->].
  rewrite length_append. lia.
Qed.

Lemma prefix_extend (p u v : string) :
  prefix p u = true -> prefix p (u ++ v) = true.
Proof.
  intros H. destruct (prefix_inv _ _ H) as [r ->].
  rewrite append_assoc. apply prefix_app.
Qed.

Lemma contains_short (sep s : string) :
  String.length s < String.length sep -> contains sep s = false.
Proof.
  induction s as [|c s IH]; intros L.
  - destruct sep; [simpl in L; lia | reflexivity].
  - rewrite contains_cons. apply orb_false_iff. split.
    + destruct (prefix sep (String c s)) eqn:E; [|reflexivity].
      apply prefix_length in E. lia.
    + apply IH. simpl in L. lia.
Qed.

(** A text that holds [sep] splits around its leftmost occurrence. *)
Lemma leftmost (sep s : string) :
  sep <> "" -> contains sep s = true ->
  exists a b, s = a ++ sep ++ b /\ contains sep (a ++ init sep) = false.
Proof.
  intros Hs. induction s as [|c s IH]; intros H.
  - destruct sep; [congruence | discriminate].
  - rewrite contains_cons in H.
    destruct (prefix sep (String c s)) eqn:E.
    + destruct (prefix_inv _ _ E) as [b Eb]. exists "", b. split; [exact Eb|].
      apply contains_short. destruct sep as [|d sep]; [congruence|].
      cbn [append]. rewrite length_init. simpl. lia.
    + cbn [orb] in H. destruct (IH H) as (a & b & -> & Ha).
      exists (String c a), b. split; [reflexivity|].
      cbn [append]. rewrite contains_cons, Ha, orb_false_r.
      destruct (prefix sep (String c (a ++ init sep))) eqn:F; [|reflexivity].
      destruct sep as [|d sep]; [congruence|].
      destruct (init_last d sep) as [l El].
      apply (prefix_extend _ _ (String l b)) in F.
      cbn [append] in F. rewrite append_assoc in F.
      rewrite El in E at 2. rewrite append_assoc in E.
      cbn [append] in E. congruence.
Qed.

Lemma split_scan_nonempty (sep : string) (skip : nat) (cur s : string) :
  split_scan sep skip cur s <> [].
Proof.
  revert skip cur. induction s as [|c s IH]; intros skip cur; [discriminate|].
  cbn [split_scan]. destruct skip; [|apply IH].
  destruct (prefix sep (String c s)); [discriminate | apply IH].
Qed.

(** [s.split(sep)[1]] exists exactly when [sep in s]. *)
Lemma second_segment (sep s : string) :
  sep <> "" ->
  (contains sep s = true -> exists t, item (split s sep) 1 = Ok t)
  /\ (contains sep s = false -> item (split s sep) 1 = Err IndexError).
Proof.
  intros Hs. split; intros H.
  - destruct (leftmost sep s Hs H) as (a & b & -> & Ha).
    rewrite split_first by assumption.
    destruct (split b sep) as [|x xs] eqn:E.
    + exfalso. exact (split_scan_nonempty _ _ _ _ E).
    + now exists x.
  - now rewrite split_none.
Qed.

(** Lines split at every line feed. *)
Lemma split_scan_lines (a b cur : string) :
  split_scan LF 0 cur (a ++ LF ++ b)
  = (split_scan LF 0 cur a ++ split_scan LF 0 "" b)%list.
Proof.
  revert cur. induction a as [|c a IH]; intros cur.
  - cbn [append]. rewrite split_scan_hit by discriminate. reflexivity.
  - change (String c a ++ LF ++ b) with (String c (a ++ LF ++ b)).
    cbn [split_scan].
    assert (P1 : forall t, prefix LF (String c t)
                           = if ascii_dec "010" c then true else false).
    { intros t. unfold LF. cbn [prefix].
      destruct (ascii_dec "010" c); [now destruct t | reflexivity]. }
    rewrite !P1. destruct (ascii_dec "010" c).
    + change (String.length LF - 1) with 0. now rewrite IH.
    + apply IH.
Qed.

Lemma split_lines (a b : string) :
  split (a ++ LF ++ b) LF = (split a LF ++ split b LF)%list.
Proof. apply split_scan_lines. Qed.

End PySplit.

Import PySplit.

(** ** PlaylistTextParser, line by line *)

Lemma two_segments (line : string) :
  Nat.eqb (List.length (split line " - ")) 2 = true ->
  exists p0 p1, split line " - " = [p0; p1].
Proof.
  destruct (split line " - ") as [|p0 [|p1 [|p2 l]]]; try discriminate.
  intros _. now exists p0, p1.
Qed.

(** The two tests on a line amount to: its first character is a digit. *)
Lemma digit_test (line : string) :
  (if truthy (strip line)
   then c <~ char_at line 0 ;; Ok (isdigit c)
   else Ok false)
  = Ok (led_by_digit line).
Proof.
  destruct line as [|c line]; [reflexivity|].
  cbn [led_by_digit]. destruct (ch_isdigit c) eqn:D.
  - rewrite strip_led by now apply digit_not_space.
    cbn [truthy char_at String.get rbind isdigit all_digits].
    now rewrite D.
  - destruct (truthy (strip (String c line))); [|reflexivity].
    cbn [char_at String.get rbind isdigit all_digits]. now rewrite D.
Qed.

(** What one line does to the list of songs. *)
Lemma extract_loop_cons (line : string) (rest : list string)
  (songs : list song) :
  extract_loop (line :: rest) songs
  = if candidate line
    then t <~ item (split (hd "" (split line " - ")) ". ") 1 ;;
         extract_loop rest
           (songs ++ [(strip t, strip (hd "" (tl (split line " - "))))])%list
    else extract_loop rest songs.
Proof.
  cbn [extract_loop]. unfold candidate.
  pose proof (digit_test line) as T.
  destruct (truthy (strip line)).
  - destruct (char_at line 0) as [c|e]; cbn [rbind] in *; [|discriminate].
    injection T as ->. destruct (led_by_digit line); [|reflexivity].
    cbn [andb].
    destruct (Nat.eqb (List.length (split line " - ")) 2) eqn:L;
      [|reflexivity].
    destruct (two_segments _ L) as (p0 & p1 & ->). reflexivity.
  - injection T as <-. reflexivity.
Qed.

Lemma extract_loop_candidates (lines : list string) (songs : list song) :
  extract_loop lines songs = extract_loop (filter candidate lines) songs.
Proof.
  revert songs. induction lines as [|line rest IH]; intros songs;
    [reflexivity|].
  rewrite extract_loop_cons. cbn [filter].
  destruct (candidate line) eqn:C; [|apply IH].
  rewrite extract_loop_cons, C.
  destruct (item (split (hd "" (split line " - ")) ". ") 1); [|reflexivity].
  cbn [rbind]. apply IH.
Qed.

(** X1: only the lines whose first character is a digit and that split on
    [" - "] into two segments are read: the other lines, among them the
    numbered lines that are indented, can be left out of the text without
    changing what [extract_songs] returns or raises. *)
Theorem extract_songs_reads_candidates (playlist_text : string) :
  extract_songs playlist_text
  = extract_loop (filter candidate (split playlist_text LF)) [].
Proof. unfold extract_songs. apply extract_loop_candidates. Qed.

Lemma extract_loop_trimmed (lines : list string) (acc songs : list song) :
  extract_loop lines acc = Ok songs ->
  Forall trimmed_song acc -> Forall trimmed_song songs.
Proof.
  revert acc. induction lines as [|line rest IH]; intros acc H F.
  - simpl in H. now injection H as <-.
  - rewrite extract_loop_cons in H.
    destruct (candidate line); [|now apply (IH acc)].
    destruct (item (split (hd "" (split line " - ")) ". ") 1) as [t|];
      [|discriminate].
    cbn [rbind] in H. apply (IH _ H).
    apply Forall_app. split; [exact F|].
    constructor; [|constructor].
    split; apply strip_idem.
Qed.

(** X2: every song that [extract_songs] returns has a trimmed title and a
    trimmed artist. *)
Theorem extract_songs_trimmed (playlist_text : string) (songs : list song) :
  extract_songs playlist_text = Ok songs -> Forall trimmed_song songs.
Proof.
  intros H. apply (extract_loop_trimmed _ [] _ H). constructor.
Qed.

Lemma extract_songs_trimmed_witness :
  extract_songs "1.   So What  -  Miles Davis  "
  = Ok [("So What", "Miles Davis")]
  /\ Forall trimmed_song [("So What", "Miles Davis")].
Proof.
  split; [reflexivity|].
  apply (extract_songs_trimmed "1.   So What  -  Miles Davis  ").
  reflexivity.
Defined.

Lemma extract_loop_raises_iff (lines : list string) (acc : list song) :
  (exists e, extract_loop lines acc = Err e)
  <-> existsb undotted lines = true.
Proof.
  revert acc. induction lines as [|line rest IH]; intros acc.
  - simpl. split; [intros [e H]; discriminate | discriminate].
  - rewrite extract_loop_cons. cbn [existsb]. unfold undotted at 1.
    destruct (candidate line); cbn [andb orb]; [|apply IH].
    destruct (second_segment ". " (hd "" (split line " - "))
                ltac:(discriminate)) as [Y N].
    destruct (contains ". " (hd "" (split line " - "))) eqn:D; cbn [negb orb].
    + destruct (Y eq_refl) as [t ->]. cbn [rbind]. apply IH.
    + rewrite (N eq_refl). cbn [rbind]. split; [reflexivity | now eexists].
Qed.

Lemma extract_loop_error (lines : list string) (acc : list song) (e : exn) :
  extract_loop lines acc = Err e -> e = IndexError.
Proof.
  revert acc. induction lines as [|line rest IH]; intros acc H.
  - discriminate.
  - rewrite extract_loop_cons in H.
    destruct (candidate line); [|now apply (IH acc)].
    destruct (item (split (hd "" (split line " - ")) ". ") 1) as [t|x] eqn:E;
      cbn [rbind] in H.
    + now apply (IH _ H).
    + injection H as <-. exact (item_error _ _ _ E).
Qed.

(** X3: [extract_songs] raises exactly on the texts that have a line whose
    first character is a digit, that splits on [" - "] into two segments,
    and whose first segment holds no [". "]; what it raises is
    [IndexError]. *)
Theorem extract_songs_raises_iff (playlist_text : string) :
  (extract_songs playlist_text = Err IndexError
   <-> existsb undotted (split playlist_text LF) = true)
  /\ (forall e, extract_songs playlist_text = Err e -> e = IndexError).
Proof.
  unfold extract_songs. split.
  - rewrite <- (extract_loop_raises_iff _ []). split.
    + intros H. now exists IndexError.
    + intros [e H]. now rewrite (extract_loop_error _ _ _ H) in H.
  - apply extract_loop_error.
Qed.

Lemma extract_songs_raises_iff_witness :
  extract_songs ("Tonight:" ++ LF ++ "1- So What - Miles Davis")
  = Err IndexError.
Proof.
  apply (proj1 (extract_songs_raises_iff
                  ("Tonight:" ++ LF ++ "1- So What - Miles Davis"))).
  reflexivity.
Defined.

Lemma rbind_assoc {A B C : Type} (r : result A) (f : A -> result B)
  (g : B -> result C) :
  rbind (rbind r f) g = rbind r (fun a => rbind (f a) g).
Proof. now destruct r. Qed.

Lemma extract_loop_acc (lines : list string) (acc : list song) :
  extract_loop lines acc
  = r <~ extract_loop lines [] ;; Ok (acc ++ r)%list.
Proof.
  revert acc. induction lines as [|line rest IH]; intros acc.
  - simpl. now rewrite List.app_nil_r.
  - rewrite !extract_loop_cons. destruct (candidate line); [|apply IH].
    destruct (item (split (hd "" (split line " - ")) ". ") 1) as [t|];
      [|reflexivity].
    cbn [rbind]. rewrite IH. rewrite (IH ([] ++ _)%list).
    rewrite rbind_assoc. cbn [rbind app].
    destruct (extract_loop rest []); [|reflexivity].
    cbn [rbind]. now rewrite <- List.app_assoc.
Qed.

Lemma extract_loop_app (l1 l2 : list string) (acc : list song) :
  extract_loop (l1 ++ l2)%list acc
  = r <~ extract_loop l1 acc ;; extract_loop l2 r.
Proof.
  revert acc. induction l1 as [|line rest IH]; intros acc; [reflexivity|].
  cbn [app]. rewrite !extract_loop_cons. destruct (candidate line);
    [|apply IH].
  destruct (item (split (hd "" (split line " - ")) ". ") 1) as [t|];
    [|reflexivity].
  cbn [rbind]. apply IH.
Qed.

(** X4: the text is read line by line: the songs of two texts put one after
    the other, a line feed between them, are the songs of the first
    followed by the songs of the second; if the first raises the whole
    raises, and the second is read only when the first has been. *)
Theorem extract_songs_app (a b : string) :
  extract_songs (a ++ LF ++ b)
  = sa <~ extract_songs a ;; sb <~ extract_songs b ;; Ok (sa ++ sb)%list.
Proof.
  unfold extract_songs. rewrite split_lines, extract_loop_app.
  destruct (extract_loop (split a LF) []) as [sa|e]; [|reflexivity].
  cbn [rbind]. apply extract_loop_acc.
Qed.

(** X5: a title that holds [". "] is cut there: of the first segment
    ["<n>. <t1>. <t2>"] only [t1], trimmed, is kept as the title. *)
Theorem extract_songs_cuts_title (n t1 t2 artist : string) :
  led_by_digit n = true ->
  contains LF (n ++ ". " ++ t1 ++ ". " ++ t2 ++ " - " ++ artist) = false ->
  contains ". " (n ++ init ". ") = false ->
  contains ". " (t1 ++ init ". ") = false ->
  cut_once " - " (n ++ ". " ++ t1 ++ ". " ++ t2) artist = true ->
  extract_songs (n ++ ". " ++ t1 ++ ". " ++ t2 ++ " - " ++ artist)
  = Ok [(strip t1, strip artist)].
Proof.
  intros Hn Hl H1 H2 Hs. unfold extract_songs.
  rewrite (split_none LF _ Hl). rewrite extract_loop_cons.
  assert (E : split (n ++ ". " ++ t1 ++ ". " ++ t2 ++ " - " ++ artist) " - "
              = [n ++ ". " ++ t1 ++ ". " ++ t2; artist]).
  { replace (n ++ ". " ++ t1 ++ ". " ++ t2 ++ " - " ++ artist)
      with ((n ++ ". " ++ t1 ++ ". " ++ t2) ++ " - " ++ artist)
      by now rewrite !append_assoc.
    now apply split_once. }
  assert (C : candidate (n ++ ". " ++ t1 ++ ". " ++ t2 ++ " - " ++ artist)
              = true).
  { unfold candidate. rewrite E. destruct n; [discriminate|].
    cbn [append led_by_digit] in *. now rewrite Hn. }
  rewrite C, E. cbn [hd tl].
  rewrite (split_first ". " n _ ltac:(discriminate) H1).
  rewrite (split_first ". " t1 _ ltac:(discriminate) H2).
  reflexivity.
Qed.

Lemma extract_songs_cuts_title_witness :
  extract_songs "1. Mr. Brightside - The Killers" = Ok [("Mr", "The Killers")].
Proof.
  apply (extract_songs_cuts_title "1" "Mr" "Brightside" "The Killers");
    reflexivity.
Defined.

(** ** TrackResolver, list by list *)

Section Resolver.

Context {P : providers}.

Lemma lookups_app (a b : list song) (w : World P) :
  lookups P (a ++ b)%list w
  = (fst (lookups P a w) ++ fst (lookups P b (snd (lookups P a w))),
     snd (lookups P b (snd (lookups P a w))))%list.
Proof.
  revert w. induction a as [|[title artist] a IH]; intros w.
  - cbn [app lookups fst snd]. now destruct (lookups P b w).
  - cbn [app lookups].
    destruct (sp_search P ("track:" ++ title ++ " artist:" ++ artist) w)
      as [r w1].
    rewrite IH. destruct (lookups P a w1) as [ra wa]. reflexivity.
Qed.

Lemma resolved_app (x y : list (result search_results)) :
  resolved (x ++ y)%list = (resolved x ++ resolved y)%list.
Proof.
  induction x as [|r x IH]; [reflexivity|].
  cbn [app resolved]. destruct (top_match r); cbn [app]; now rewrite IH.
Qed.

(** X6: resolving a list of songs in one call or in two, the second taking
    up the world where the first left it, makes the same lookups and
    gives the same identifiers. *)
Theorem search_songs_app (a b : list song) (s : store P) :
  search_songs (a ++ b)%list s
  = (Ok (resolved (fst (lookups P a (world s)))
         ++ resolved (fst (lookups P b (world (snd (search_songs a s))))))%list,
     snd (search_songs b (snd (search_songs a s)))).
Proof.
  unfold search_songs. rewrite !search_loop_resolves.
  cbn [snd app in_world world sess].
  rewrite lookups_app. cbn [fst snd]. now rewrite resolved_app.
Qed.

(** X7: neither the search, nor the publication, nor the generation of the
    playlist writes to the session. *)
Theorem catalog_steps_keep_session (songs : list song) (name m g : string)
  (uris : list string) :
  keeps_session (search_songs (P := P) songs)
  /\ keeps_session (create_spotify_playlist (P := P) name uris)
  /\ keeps_session (generate_playlist (P := P) m g).
Proof.
  split; [|split].
  - apply keeps_search_songs.
  - apply keeps_create_spotify_playlist.
  - apply keeps_generate_playlist.
Qed.

(** *** [generate_playlist] *)

(** X8: what [generate_playlist] returns is either no text and the message,
    or a text that is not empty and is trimmed together with the songs
    that [extract_songs] reads from it. *)
Theorem generate_playlist_shape (m g : string) (s s' : store P)
  (playlist_text : option string) (x : string + list song) :
  generate_playlist m g s = (Ok (playlist_text, x), s') ->
  (playlist_text = None /\ x = inl SORRY_MESSAGE)
  \/ exists t songs,
       playlist_text = Some t /\ x = inr songs
       /\ t <> "" /\ strip t = t /\ extract_songs t = Ok songs.
Proof.
  unfold generate_playlist, bind, call, lift, ret.
  destruct (generate P PlaylistPrompt ("Mood: " ++ m ++ ", Genre: " ++ g)
              (world s)) as [[[r|]|e] w1]; cbn [stripped_response];
    [|discriminate|discriminate].
  destruct (truthy (strip (response_or_empty r))) eqn:T; cbn [negb].
  - destruct (extract_songs (strip (response_or_empty r))) as [songs|e] eqn:E;
      [|discriminate].
    intros [= <- <- <-]. right.
    exists (strip (response_or_empty r)), songs.
    repeat split; auto using truthy_nonempty, strip_idem.
  - intros [= <- <- <-]. now left.
Qed.

End Resolver.

Lemma generate_playlist_shape_witness :
  generate_playlist "calm" "jazz"
    (on_air "" ("  1. So What - Miles Davis" ++ LF) true)
  = (Ok (Some "1. So What - Miles Davis", inr [("So What", "Miles Davis")]),
     in_world (on_air "" ("  1. So What - Miles Davis" ++ LF) true)
       (noted "generate"
          (world (on_air "" ("  1. So What - Miles Davis" ++ LF) true))))
  /\ ((Some "1. So What - Miles Davis" = None
       /\ @inr string _ [("So What", "Miles Davis")] = inl SORRY_MESSAGE)
      \/ exists t songs,
           Some "1. So What - Miles Davis" = Some t
           /\ @inr string _ [("So What", "Miles Davis")] = inr songs
           /\ t <> "" /\ strip t = t /\ extract_songs t = Ok songs).
Proof.
  split; [reflexivity|].
  eapply (generate_playlist_shape (P := scripted) "calm" "jazz"
            (on_air "" ("  1. So What - Miles Davis" ++ LF) true)).
  reflexivity.
Defined.

(** ** PreferenceExtractor, marker by marker *)

Lemma first_segment (sep s : string) :
  exists t, item (split s sep) 0 = Ok t.
Proof.
  unfold split. destruct (split_scan sep 0 "" s) as [|t l] eqn:E.
  - exfalso. exact (split_scan_nonempty _ _ _ _ E).
  - now exists t.
Qed.

(** X9: the split on the markers raises exactly when the markers are seen in
    the lowered text while ["Mood:"] or ["Genre:"], as written, is not in
    the text. *)
Theorem parse_mood_genre_raises_iff (response_text : string) :
  parse_mood_genre response_text = Err IndexError
  <-> markers_seen response_text = true
      /\ (contains "Mood:" response_text = false
          \/ contains "Genre:" response_text = false).
Proof.
  unfold parse_mood_genre. fold (markers_seen response_text).
  destruct (markers_seen response_text).
  2: { split; [discriminate | intros [H _]; discriminate]. }
  destruct (second_segment "Mood:" response_text ltac:(discriminate))
    as [YM NM].
  destruct (second_segment "Genre:" response_text ltac:(discriminate))
    as [YG NG].
  destruct (contains "Mood:" response_text).
  - destruct (YM eq_refl) as [a ->]. cbn [rbind].
    destruct (first_segment "Genre:" a) as [b ->]. cbn [rbind].
    destruct (contains "Genre:" response_text).
    + destruct (YG eq_refl) as [c ->]. cbn [rbind].
      split; [discriminate | intros [_ [H|H]]; discriminate].
    + rewrite (NG eq_refl). cbn [rbind]. split; auto.
  - rewrite (NM eq_refl). cbn [rbind]. split; auto.
Qed.

Lemma parse_mood_genre_raises_iff_witness :
  parse_mood_genre ("Mood: calm" ++ LF ++ "genre: jazz") = Err IndexError.
Proof.
  apply (proj2 (parse_mood_genre_raises_iff
                  ("Mood: calm" ++ LF ++ "genre: jazz"))).
  split; [reflexivity | right; reflexivity].
Defined.

(** X10: with the genre marker before the mood marker, each of them once, the
    mood is the trimmed text after the mood marker, and the genre is all
    that follows the genre marker, the mood marker and the mood with
    it. *)
Theorem parse_mood_genre_genre_first (pre g m : string) :
  cut_once "Genre:" pre (g ++ "Mood:" ++ m) = true ->
  cut_once "Mood:" (pre ++ "Genre:" ++ g) m = true ->
  parse_mood_genre (pre ++ "Genre:" ++ g ++ "Mood:" ++ m)
  = Ok (Some (strip m), Some (strip (g ++ "Mood:" ++ m))).
Proof.
  intros HG HM. unfold parse_mood_genre.
  assert (GG : contains "genre:"
                 (lower (pre ++ "Genre:" ++ g ++ "Mood:" ++ m)) = true).
  { rewrite !lower_app. apply contains_here. }
  assert (GM : contains "mood:"
                 (lower (pre ++ "Genre:" ++ g ++ "Mood:" ++ m)) = true).
  { replace (pre ++ "Genre:" ++ g ++ "Mood:" ++ m)
      with ((pre ++ "Genre:" ++ g) ++ "Mood:" ++ m)
      by now rewrite !append_assoc.
    rewrite (lower_app (pre ++ "Genre:" ++ g)), (lower_app "Mood:").
    apply contains_here. }
  rewrite GM, GG. cbn [andb].
  rewrite (split_once "Genre:" pre _ ltac:(discriminate) HG).
  replace (pre ++ "Genre:" ++ g ++ "Mood:" ++ m)
    with ((pre ++ "Genre:" ++ g) ++ "Mood:" ++ m)
    by now rewrite !append_assoc.
  rewrite (split_once "Mood:" _ m ltac:(discriminate) HM).
  cbn [item nth_error rbind].
  assert (Hm : contains "Genre:" m = false).
  { unfold cut_once in HG. apply andb_true_iff in HG. destruct HG as [_ HG].
    apply negb_true_iff in HG.
    replace (g ++ "Mood:" ++ m) with ((g ++ "Mood:") ++ m) in HG
      by now rewrite !append_assoc.
    exact (contains_tail _ _ _ HG). }
  rewrite (split_none "Genre:" m Hm). reflexivity.
Qed.

Lemma parse_mood_genre_genre_first_witness :
  parse_mood_genre ("Genre: jazz" ++ LF ++ "Mood: calm")
  = Ok (Some "calm", Some ("jazz" ++ LF ++ "Mood: calm")).
Proof.
  apply (parse_mood_genre_genre_first "" (" jazz" ++ LF) " calm");
    reflexivity.
Defined.

(** ** ConversationOrchestrator, stage by stage *)

Section Stages.

Context {P : providers}.

(** After a complete reply the handler goes on with the playlist, the
    preferences set. *)
Lemma handler_complete_run (message : string) (s : store P) (r : generation)
  (w1 : World P) (m g : string) :
  generate P AssistantPrompt
    (assistant_query message (preferences (sess s))) (world s) = (Ok (Dict r), w1) ->
  preference_extractor (strip (response_or_empty r)) = Complete m g ->
  music_assistant_llm message s
  = playlist_stage m g {| sess := committed (sess s) m g; world := w1 |}.
Proof.
  intros G O. handler_start G. unfold preference_extractor in O.
  destruct (contains FILTER_MARKER (lower (strip (response_or_empty r))));
    [discriminate|].
  destruct (parse_mood_genre (strip (response_or_empty r)))
    as [[[m'|] [g'|]]|e]; try discriminate.
  destruct (truthy m') eqn:Tm, (truthy g') eqn:Tg; cbn [andb] in O;
    try discriminate.
  injection O as -> ->. unfold falsy at 1 2. rewrite Tm, Tg. cbn [negb orb].
  unfold bind at 1. unfold set_mood at 1.
  unfold bind at 1. unfold set_genre at 1. reflexivity.
Qed.

(** X11: a reply that lacks one of the markers, in whatever letter case, and
    is not filtered is handed back as it is, trimmed; the session is as
    it was and no further call is made. *)
Theorem reply_without_markers_passes_through (message : string)
  (s : store P) (r : generation) (w1 : World P) :
  generate P AssistantPrompt
    (assistant_query message (preferences (sess s))) (world s) = (Ok (Dict r), w1) ->
  contains FILTER_MARKER (lower (strip (response_or_empty r))) = false ->
  markers_seen (strip (response_or_empty r)) = false ->
  music_assistant_llm message s
  = (Ok (strip (response_or_empty r)), in_world s w1).
Proof.
  intros G F N.
  assert (O : preference_extractor (strip (response_or_empty r)) = Incomplete).
  { unfold preference_extractor, parse_mood_genre.
    fold (markers_seen (strip (response_or_empty r))). now rewrite F, N. }
  rewrite (handler_stops _ _ _ _ G); rewrite O; reflexivity.
Qed.

(** [generate_playlist] once the playlist prompt has been answered. *)
Lemma generate_playlist_run (m g : string) (s : store P) (a : generated)
  (w2 : World P) :
  generate P PlaylistPrompt (playlist_query m g) (world s) = (Ok a, w2) ->
  generate_playlist m g s
  = (playlist_text <- lift (stripped_response a) ;;
     if negb (truthy playlist_text) then ret (None, inl SORRY_MESSAGE)
     else
       songs <- lift (extract_songs playlist_text) ;;
       ret (Some playlist_text, inr songs)) (in_world s w2).
Proof.
  intros G. unfold generate_playlist, playlist_query in *.
  unfold bind at 1. unfold call at 1. now rewrite G.
Qed.

Lemma generate_playlist_raises (m g : string) (s : store P) (e : exn)
  (w2 : World P) :
  generate P PlaylistPrompt (playlist_query m g) (world s) = (Err e, w2) ->
  generate_playlist m g s = (Err e, in_world s w2).
Proof.
  intros G. unfold generate_playlist, playlist_query in *.
  unfold bind at 1. unfold call at 1. now rewrite G.
Qed.

(** X13: when the playlist prompt is answered by nothing but white space, or
    by a dictionary without a response, the handler replies that it
    could not generate a playlist; the preferences stay set, and neither
    the search nor the publication is called. *)
Theorem empty_playlist_reply (message : string) (s : store P)
  (r : generation) (w1 : World P) (m g : string) (r2 : generation)
  (w2 : World P) :
  generate P AssistantPrompt
    (assistant_query message (preferences (sess s))) (world s) = (Ok (Dict r), w1) ->
  preference_extractor (strip (response_or_empty r)) = Complete m g ->
  generate P PlaylistPrompt (playlist_query m g) w1 = (Ok (Dict r2), w2) ->
  strip (response_or_empty r2) = "" ->
  music_assistant_llm message s
  = (Ok NO_PLAYLIST_MESSAGE,
     {| sess := committed (sess s) m g; world := w2 |}).
Proof.
  intros G O G2 E. rewrite (handler_complete_run _ _ _ _ _ _ G O).
  unfold playlist_stage. unfold bind at 1.
  rewrite (generate_playlist_run m g
               (Build_store P (committed (sess s) m g) w1) _ w2 G2).
  unfold bind at 1. unfold lift at 1. cbn [stripped_response].
  rewrite E. reflexivity.
Qed.

(** X15: an exception leaves the handler only when [generate] raises it,
    when what [generate] hands back cannot be read (a value that is not
    a dictionary, or an entry ["response"] that is not a string, on which
    the handler raises [AttributeError]), for the assistant prompt or for
    the playlist prompt, or when [extract_songs] raises it; a failure of
    the search or of the publication never does.  When the exception
    comes with the playlist prompt or from [extract_songs], the
    preferences have been set. *)
Theorem handler_raises_only_from (message : string) (s s' : store P)
  (e : exn) :
  music_assistant_llm message s = (Err e, s') ->
  (exists w1,
     generate P AssistantPrompt
       (assistant_query message (preferences (sess s))) (world s)
     = (Err e, w1)
     /\ s' = in_world s w1)
  \/ (exists w1,
        generate P AssistantPrompt
          (assistant_query message (preferences (sess s))) (world s)
        = (Ok Unusable, w1)
        /\ e = AttributeError /\ s' = in_world s w1)
  \/ exists r w1 m g,
       generate P AssistantPrompt
         (assistant_query message (preferences (sess s))) (world s)
       = (Ok (Dict r), w1)
       /\ preference_extractor (strip (response_or_empty r)) = Complete m g
       /\ sess s' = committed (sess s) m g
       /\ ((exists w2,
              generate P PlaylistPrompt (playlist_query m g) w1 = (Err e, w2))
           \/ (exists w2,
                 generate P PlaylistPrompt (playlist_query m g) w1
                 = (Ok Unusable, w2)
                 /\ e = AttributeError)
           \/ exists r2 w2,
                generate P PlaylistPrompt (playlist_query m g) w1
                = (Ok (Dict r2), w2)
                /\ extract_songs (strip (response_or_empty r2)) = Err e).
Proof.
  intros H.
  destruct (generate P AssistantPrompt
              (assistant_query message (preferences (sess s))) (world s))
    as [[[r|]|e1] w1] eqn:G.
  2: { rewrite (handler_unusable _ _ _ G) in H.
       injection H as <- <-. right. left. now exists w1. }
  2: { rewrite (handler_generate_raises _ _ _ _ G) in H.
       injection H as <- <-. left. now exists w1. }
  destruct (preference_extractor (strip (response_or_empty r)))
    as [| | |m g] eqn:O.
  1-3: rewrite (handler_stops _ _ _ _ G) in H; [discriminate|];
       rewrite O; reflexivity.
  right. right. exists r, w1, m, g.
  split; [reflexivity|]. split; [exact O|].
  rewrite (handler_complete_run _ _ _ _ _ _ G O) in H.
  unfold playlist_stage in H. unfold bind at 1 in H.
  destruct (generate P PlaylistPrompt (playlist_query m g) w1)
    as [[[r2|]|e2] w2] eqn:G2.
  - rewrite (generate_playlist_run m g
               (Build_store P (committed (sess s) m g) w1) _ w2 G2) in H.
    unfold bind at 1 in H. unfold lift at 1 in H.
    cbn [stripped_response] in H. cbv beta iota in H.
    destruct (truthy (strip (response_or_empty r2))) eqn:T; cbn [negb] in H;
      [|discriminate].
    unfold bind at 1 in H. unfold lift at 1 in H.
    destruct (extract_songs (strip (response_or_empty r2))) as [songs|e3]
      eqn:X.
    2: { injection H as <- <-. split; [reflexivity|]. right. right.
         exists r2, w2. now split. }
    exfalso. unfold ret at 1 in H. unfold falsy at 1 in H. rewrite T in H.
    cbn [negb] in H. unfold bind at 1 in H. unfold search_songs in H.
    rewrite search_loop_resolves in H. cbn [app] in H.
    unfold bind at 1 in H.
    match type of H with
    | context [create_spotify_playlist ?n ?u ?s3] =>
        destruct (create_spotify_playlist_returns n u s3) as (link & w4 & C);
        rewrite C in H
    end.
    destruct link as [url|]; [destruct (truthy url)|]; discriminate.
  - rewrite (generate_playlist_run m g
               (Build_store P (committed (sess s) m g) w1) _ w2 G2) in H.
    unfold bind at 1 in H. unfold lift at 1 in H.
    cbn [stripped_response] in H. injection H as <- <-.
    split; [reflexivity|]. right. left. now exists w2.
  - rewrite (generate_playlist_raises m g
               (Build_store P (committed (sess s) m g) w1) _ w2 G2) in H.
    injection H as <- <-. split; [reflexivity|]. left. now exists w2.
Qed.

(** X16: the entry ["state"] of the session is never written: it holds
    ["conversation"] in every session the handler can be in. *)
Theorem session_state_constant (d : session_dict) :
  reachable P d -> state d = "conversation".
Proof.
  induction 1 as [|d w message R IH]; [reflexivity|].
  destruct (handler_step message {| sess := d; world := w |})
    as [E | (m & g & _ & _ & E)]; rewrite E; exact IH.
Qed.

Lemma main_run (members : list (string * json_value)) (t : string)
  (s : store P) :
  dict_get members "text" (JString "") = JString t ->
  main (JObject members) s
  = (reply <- music_assistant_llm (strip t) ;; ret {| text := reply |}) s.
Proof.
  intros H. unfold main. unfold bind at 1. unfold lift at 1. now rewrite H.
Qed.

(** X17: only the member ["text"] of the body is used, and the white space
    around it does not count: two bodies whose texts are equal once
    trimmed have the same reply and the same effects. *)
Theorem main_reads_trimmed_text (members1 members2 : list (string * json_value))
  (t1 t2 : string) (s : store P) :
  dict_get members1 "text" (JString "") = JString t1 ->
  dict_get members2 "text" (JString "") = JString t2 ->
  strip t1 = strip t2 ->
  main (JObject members1) s = main (JObject members2) s.
Proof.
  intros H1 H2 E.
  rewrite (main_run _ _ _ H1), (main_run _ _ _ H2). now rewrite E.
Qed.

Lemma dict_get_absent (members : list (string * json_value)) (key : string)
  (default : json_value) :
  forallb (fun kv => negb (String.eqb (fst kv) key)) members = true ->
  dict_get members key default = default.
Proof.
  induction members as [|[k v] rest IH]; [reflexivity|].
  cbn [forallb fst dict_get]. intros H. apply andb_true_iff in H.
  destruct H as [N H]. apply negb_true_iff in N. rewrite N. now apply IH.
Qed.

(** X18: a body that has no member ["text"] is handled as the empty
    message. *)
Theorem main_without_text (members : list (string * json_value))
  (s : store P) :
  forallb (fun kv => negb (String.eqb (fst kv) "text")) members = true ->
  main (JObject members) s
  = (reply <- music_assistant_llm "" ;; ret {| text := reply |}) s.
Proof.
  intros H. apply (main_run members ""). now apply dict_get_absent.
Qed.

End Stages.

Section Replies.

Context {P : providers}.

(** X12: when the assistant prompt is answered by nothing but white space, or
    by a dictionary without a response, the reply of the handler is the
    empty text. *)
Theorem empty_assistant_reply (message : string) (s : store P)
  (r : generation) (w1 : World P) :
  generate P AssistantPrompt
    (assistant_query message (preferences (sess s))) (world s) = (Ok (Dict r), w1) ->
  strip (response_or_empty r) = "" ->
  music_assistant_llm message s = (Ok "", in_world s w1).
Proof.
  intros G E.
  rewrite (handler_stops _ _ _ _ G); rewrite E; reflexivity.
Qed.

End Replies.

Lemma has_char_append (c : ascii) (a b : string) :
  has_char c (a ++ b) = has_char c a || has_char c b.
Proof.
  induction a as [|d a IH]; [reflexivity|].
  cbn [append has_char]. now rewrite IH, orb_assoc.
Qed.

Lemma repr_body_one_line (quote : ascii) (s : string) :
  quote = SQ \/ quote = DQ ->
  has_char "010" (repr_body quote s) = false.
Proof.
  intros Q. induction s as [|c s IH]; [reflexivity|].
  cbn [repr_body]. rewrite has_char_append, IH, orb_false_r.
  destruct Q as [-> | ->];
    destruct c as [[] [] [] [] [] [] [] []]; reflexivity.
Qed.

Lemma repr_opt_one_line (v : option string) :
  has_char "010" (repr_opt v) = false.
Proof.
  destruct v as [t|]; [|reflexivity].
  unfold repr_opt, repr_str.
  assert (Q : repr_quote t = SQ \/ repr_quote t = DQ).
  { unfold repr_quote. destruct (has_char SQ t && negb (has_char DQ t)); auto. }
  cbn [has_char]. rewrite has_char_append, (repr_body_one_line _ _ Q).
  destruct Q as [-> | ->]; reflexivity.
Qed.

(** X19: whatever the preferences hold, their rendering in the query of the
    assistant prompt has no line feed: a line feed in a preference is
    written as a backslash and the letter n. *)
Theorem repr_preferences_one_line (p : preferences_dict) :
  has_char "010" (repr_preferences p) = false.
Proof.
  unfold repr_preferences.
  rewrite !has_char_append, !repr_opt_one_line. reflexivity.
Qed.

(** *** Runs in the scripted world *)

Lemma reply_without_markers_passes_through_witness :
  music_assistant_llm "hello" (on_air "  Mood: happy  " "" true)
  = (Ok "Mood: happy",
     in_world (on_air "  Mood: happy  " "" true)
       (noted "generate" (world (on_air "  Mood: happy  " "" true)))).
Proof.
  apply (reply_without_markers_passes_through (P := scripted) "hello"
           (on_air "  Mood: happy  " "" true)
           {| response := Some "  Mood: happy  " |});
    reflexivity.
Defined.

Lemma empty_assistant_reply_witness :
  music_assistant_llm "hello" (on_air ("  " ++ LF) "" true)
  = (Ok "",
     in_world (on_air ("  " ++ LF) "" true)
       (noted "generate" (world (on_air ("  " ++ LF) "" true)))).
Proof.
  apply (empty_assistant_reply (P := scripted) "hello"
           (on_air ("  " ++ LF) "" true)
           {| response := Some ("  " ++ LF) |});
    reflexivity.
Defined.

Lemma empty_playlist_reply_witness :
  music_assistant_llm "I feel relaxed, love jazz"
    (on_air ("Mood: relaxed" ++ LF ++ "Genre: jazz") "   " true)
  = (Ok NO_PLAYLIST_MESSAGE,
     (Build_store scripted (committed session "relaxed" "jazz")
       (noted "generate"
            (noted "generate"
               (world (on_air ("Mood: relaxed" ++ LF ++ "Genre: jazz")
                         "   " true)))))).
Proof.
  apply (empty_playlist_reply (P := scripted) "I feel relaxed, love jazz"
           (on_air ("Mood: relaxed" ++ LF ++ "Genre: jazz") "   " true)
           {| response := Some ("Mood: relaxed" ++ LF ++ "Genre: jazz") |}
           (noted "generate"
              (world (on_air ("Mood: relaxed" ++ LF ++ "Genre: jazz")
                        "   " true)))
           "relaxed" "jazz"
           {| response := Some "   " |});
    reflexivity.
Defined.

Lemma handler_reply_with_playlist_witness :
  exists (link : option string) (s3 s4 : store scripted),
    search_songs [("So What", "Miles Davis")]
      (Build_store scripted (committed session "relaxed" "jazz")
       (noted "generate"
             (noted "generate"
                (world (on_air ("Mood: relaxed" ++ LF ++ "Genre: jazz")
                          "1. So What - Miles Davis" true)))))
    = (Ok ["spotify:track:So What artist:Miles Davis"], s3)
    /\ create_spotify_playlist "relaxed jazz Playlist"
         ["spotify:track:So What artist:Miles Davis"] s3 = (Ok link, s4)
    /\ music_assistant_llm "I feel relaxed, love jazz"
         (on_air ("Mood: relaxed" ++ LF ++ "Genre: jazz")
            "1. So What - Miles Davis" true)
       = (Ok ("1. So What - Miles Davis"
              ++ match link with
                 | Some url =>
                     if truthy url then LISTEN_PREFIX ++ url
                     else DEGRADED_NOTICE
                 | None => DEGRADED_NOTICE
                 end),
          s4).
Proof.
  apply (handler_reply_with_playlist (P := scripted)
           "I feel relaxed, love jazz"
           (on_air ("Mood: relaxed" ++ LF ++ "Genre: jazz")
              "1. So What - Miles Davis" true)
           {| response := Some ("Mood: relaxed" ++ LF ++ "Genre: jazz") |}
           (noted "generate"
              (world (on_air ("Mood: relaxed" ++ LF ++ "Genre: jazz")
                        "1. So What - Miles Davis" true)))
           "relaxed" "jazz"
           {| response := Some "1. So What - Miles Davis" |}
           (noted "generate"
              (noted "generate"
                 (world (on_air ("Mood: relaxed" ++ LF ++ "Genre: jazz")
                           "1. So What - Miles Davis" true))))
           [("So What", "Miles Davis")]);
    reflexivity.
Defined.

Lemma handler_raises_only_from_witness :
  music_assistant_llm "I feel relaxed, love jazz"
    (on_air ("Mood: relaxed" ++ LF ++ "Genre: jazz")
       "1) So What - Miles Davis" true)
  = (Err IndexError,
     (Build_store scripted (committed session "relaxed" "jazz")
       (noted "generate"
            (noted "generate"
               (world (on_air ("Mood: relaxed" ++ LF ++ "Genre: jazz")
                         "1) So What - Miles Davis" true))))))
  /\ exists r2 w2,
       generate scripted PlaylistPrompt (playlist_query "relaxed" "jazz")
         (noted "generate"
            (world (on_air ("Mood: relaxed" ++ LF ++ "Genre: jazz")
                      "1) So What - Miles Davis" true)))
       = (Ok (Dict r2), w2)
       /\ extract_songs (strip (response_or_empty r2)) = Err IndexError.
Proof.
  split; [reflexivity|].
  destruct (handler_raises_only_from (P := scripted)
              "I feel relaxed, love jazz"
              (on_air ("Mood: relaxed" ++ LF ++ "Genre: jazz")
                 "1) So What - Miles Davis" true)
              _ IndexError eq_refl)
    as [(w1 & G & _)
       | [(w1 & G & _)
         | (r & w1 & m & g & G & O & _
            & [(w2 & G2) | [(w2 & G2 & _) | H]])]].
  - discriminate G.
  - discriminate G.
  - discriminate G2.
  - discriminate G2.
  - injection G as <- <-. injection O as <- <-. exact H.
Defined.

Lemma session_state_constant_witness :
  state (sess (snd (music_assistant_llm "I feel relaxed, love jazz"
                      (on_air ("Mood: relaxed" ++ LF ++ "Genre: jazz")
                         "1. So What - Miles Davis" true))))
  = "conversation".
Proof.
  exact (session_state_constant (P := scripted) _
           (reach_step scripted session
              (world (on_air ("Mood: relaxed" ++ LF ++ "Genre: jazz")
                        "1. So What - Miles Davis" true))
              "I feel relaxed, love jazz" (reach_start scripted))).
Defined.

Lemma main_reads_trimmed_text_witness :
  main (JObject [("user", JString "ada"); ("text", JString "  hello ")])
    (on_air "Which genre do you like?" "" true)
  = main (JObject [("text", JString "hello")])
      (on_air "Which genre do you like?" "" true).
Proof.
  apply (main_reads_trimmed_text (P := scripted)
           [("user", JString "ada"); ("text", JString "  hello ")]
           [("text", JString "hello")] "  hello " "hello");
    reflexivity.
Defined.

Lemma main_without_text_witness :
  main (JObject [("user", JString "ada")])
    (on_air "Which genre do you like?" "" true)
  = (Ok {| text := "Which genre do you like?" |},
     in_world (on_air "Which genre do you like?" "" true)
       (noted "generate"
          (world (on_air "Which genre do you like?" "" true)))).
Proof.
  rewrite (main_without_text (P := scripted) [("user", JString "ada")]
             (on_air "Which genre do you like?" "" true) eq_refl).
  reflexivity.
Defined.

(** ** The markers as the source writes them *)

Section Markers.

Context {P : providers}.

(** C3, as amended: when the reply of the assistant prompt, once the
    handler has trimmed it, does not hold the marker of filtered content
    and holds the markers as the source writes them, ["Mood:"] then
    ["Genre:"], each of them once, the handler splits it on the markers:
    the mood is the trimmed text between the two markers and the genre
    the trimmed text after the genre marker.  When neither is empty they
    are what the handler sets as the preferences of the session; when one
    is empty the handler hands the reply back as it is. *)
Theorem exact_markers_extracted (message : string) (s : store P)
  (r : generation) (w1 : World P) (pre m g : string) :
  generate P AssistantPrompt
    (assistant_query message (preferences (sess s))) (world s)
  = (Ok (Dict r), w1) ->
  strip (response_or_empty r) = pre ++ "Mood:" ++ m ++ "Genre:" ++ g ->
  contains FILTER_MARKER (lower (strip (response_or_empty r))) = false ->
  cut_once "Mood:" pre (m ++ "Genre:" ++ g) = true ->
  cut_once "Genre:" (pre ++ "Mood:" ++ m) g = true ->
  parse_mood_genre (strip (response_or_empty r))
  = Ok (Some (strip m), Some (strip g))
  /\ (strip m <> "" -> strip g <> "" ->
      preference_extractor (strip (response_or_empty r))
      = Complete (strip m) (strip g)
      /\ sess (snd (music_assistant_llm message s))
         = committed (sess s) (strip m) (strip g))
  /\ (strip m = "" \/ strip g = "" ->
      music_assistant_llm message s
      = (Ok (strip (response_or_empty r)), in_world s w1)).
Proof.
  intros G E F HM HG.
  pose proof (parse_mood_genre_exact_markers pre m g HM HG) as Q.
  rewrite <- E in Q. split; [exact Q|].
  assert (O : preference_extractor (strip (response_or_empty r))
              = if truthy (strip m) && truthy (strip g)
                then Complete (strip m) (strip g) else Incomplete).
  { unfold preference_extractor. now rewrite F, Q. }
  split.
  - intros Nm Ng.
    assert (C : preference_extractor (strip (response_or_empty r))
                = Complete (strip m) (strip g)).
    { rewrite O. destruct (strip m); [congruence|].
      destruct (strip g); [congruence | reflexivity]. }
    split; [exact C|]. exact (handler_commits _ _ _ _ _ _ G C).
  - intros Z.
    assert (I : preference_extractor (strip (response_or_empty r))
                = Incomplete).
    { rewrite O. destruct Z as [-> | ->]; [reflexivity|].
      now rewrite andb_false_r. }
    rewrite (handler_stops _ _ _ _ G); rewrite I; reflexivity.
Qed.

End Markers.

Lemma exact_markers_extracted_witness :
  sess (snd (music_assistant_llm "I am happy and I like pop"
               (on_air ("Mood: happy" ++ LF ++ "Genre: pop")
                  "1. Happy - Pharrell Williams" true)))
  = committed session "happy" "pop".
Proof.
  destruct (exact_markers_extracted (P := scripted)
              "I am happy and I like pop"
              (on_air ("Mood: happy" ++ LF ++ "Genre: pop")
                 "1. Happy - Pharrell Williams" true)
              {| response := Some ("Mood: happy" ++ LF ++ "Genre: pop") |}
              (noted "generate"
                 (world (on_air ("Mood: happy" ++ LF ++ "Genre: pop")
                           "1. Happy - Pharrell Williams" true)))
              "" (" happy" ++ LF) " pop"
              eq_refl eq_refl eq_refl eq_refl eq_refl)
    as (_ & H & _).
  apply H; discriminate.
Defined.

(** A run of [search_songs] on the catalog with gaps: the second lookup
    raises, the third finds nothing, the fourth answers without tracks;
    the first and the fifth give their top match, in that order, and all
    five lookups are made. *)
Lemma search_songs_resolves_witness :
  search_songs [("So What", "Miles Davis"); ("Numb", "Offline");
                ("Unknown", "Prince"); ("Yesterday", "Nobody");
                ("Hey Jude", "The Beatles")]
    (Build_store jukebox session 0)
  = (Ok ["spotify:track:So What artist:Miles Davis";
         "spotify:track:Hey Jude artist:The Beatles"],
     Build_store jukebox session 5).
Proof.
  exact (proj1 (search_songs_resolves (P := jukebox)
                  [("So What", "Miles Davis"); ("Numb", "Offline");
                   ("Unknown", "Prince"); ("Yesterday", "Nobody");
                   ("Hey Jude", "The Beatles")]
                  (Build_store jukebox session 0))).
Defined.

(** A run of the handler in a world where [generate] hands back a value
    that is not a dictionary. *)
Lemma handler_unusable_run :
  music_assistant_llm "hello" (Build_store jukebox session 0)
  = (Err AttributeError, Build_store jukebox session 1).
Proof.
  exact (handler_unusable (P := jukebox) "hello"
           (Build_store jukebox session 0) 1 eq_refl).
Qed.
